(** * Kritika bot: the per-chat session registry and the two Telegram handlers

    A shallow embedding of [kritika_botren.py].  The module keeps one
    process-wide dictionary [conversations] from chat ids to Gemini chat
    sessions and registers two handlers, [start] and [generate_response].
    Both talk to two client libraries (the Telegram bot client and the
    Gemini chat session) whose calls may return or raise.

    The embedding threads an explicit program state through a small
    state-and-exception monad.  What the two clients answer is not decided
    by the program, so it is supplied by an oracle ([Env]); every call the
    handlers make on a client is recorded, with its outcome, in the state. *)

From Stdlib Require Import ZArith String Ascii List Lia.
From stdpp Require Import gmap strings list pretty.

Open Scope string_scope.
Open Scope Z_scope.
Open Scope list_scope.

(** ** Python values the handlers look at *)

(** Instances of subclasses of Python's [Exception]: the ones a plain
    [except Exception] clause catches.  [str(e)] is [exn_msg]. *)
Inductive ExnClass :=
| ValueError | AttributeError | KeyError
| NetworkError | TimedOut | BadRequest
| ResourceExhausted | InternalServerError.

Record Exn := { exn_class : ExnClass; exn_msg : string }.

Definition is_ValueError (e : Exn) : bool :=
  match exn_class e with ValueError => true | _ => false end.

Definition is_AttributeError (e : Exn) : bool :=
  match exn_class e with AttributeError => true | _ => false end.

(** Truth value of a Python [str]: only the empty string is false. *)
Definition truthy (s : string) : bool :=
  match s with EmptyString => false | String _ _ => true end.

(** Truth value of an attribute that holds a [str] or [None]. *)
Definition truthy_opt (o : option string) : bool :=
  match o with Some s => truthy s | None => false end.


(** [update.effective_user], [update.message] and the fields read from
    them.  [None] stands for Python's [None]. *)
Record User := { first_name : string }.
Record Message := { msg_text : option string }.
Record Update := {
  effective_chat_id : Z;              (* update.effective_chat.id *)
  effective_user : option User;
  message : option Message
}.

(** Reading an attribute of an object of a client library either yields
    its value or raises: an attribute may be a property that computes,
    and a missing attribute raises [AttributeError]. *)
Inductive Read (A : Type) :=
| Value (a : A)
| ReadError (e : Exn).
Arguments Value {A} a.
Arguments ReadError {A} e.

(** The response object of [chat_session.send_message] and its parts, as
    far as the handler looks at them: what reading [response.text],
    [response.parts] and [part.text] does (a text is a [str] or [None],
    the parts are an ordered sequence), and what [str(response)] prints. *)
Record Part := { part_text : Read (option string) }.
Record Response := {
  response_text : Read (option string);
  response_parts : Read (list Part);
  response_str : string
}.

(** ** Log records *)

Inductive Level := INFO | WARNING | ERROR | CRITICAL.

Record LogRecord := {
  levelname : Level;
  log_msg : string;
  exc_info : option Exn               (* the exception attached by exc_info=True *)
}.

(** ** Calls on the two clients *)

(** One call made by a handler, with what the client answered:
    [context.bot.send_chat_action], [context.bot.send_message] and
    [chat_session.send_message]. *)
Inductive Call :=
| SendChatAction (chat_id : Z) (action : string) (raised : option Exn)
| SendMessage (chat_id : Z) (text : string) (raised : option Exn)
| ChatSendMessage (session : nat) (prompt : string) (answer : Exn + Response).

(** What the clients answer.  The first argument of each field is the
    number of client calls made so far in the process, so the same
    request may be answered differently at different times. *)
Record Env := {
  on_send_chat_action : nat -> Z -> string -> option Exn;
  on_send_message : nat -> Z -> string -> option Exn;
  on_chat_send_message : nat -> nat -> string -> Exn + Response
}.

(** ** Program state *)

(** One turn of a chat session's history. *)
Inductive Content :=
| UserTurn (prompt : string)
| ModelTurn (response : Response).

(** A Gemini [ChatSession] object.  The source only ever fixes its
    initial history ([history=[]]); the client library appends the
    exchange of every call that returns. *)
Record ChatSession := { history : list Content }.

(** [conversations] is the module-level dictionary.  Session objects are
    identified by the order of their creation: [sessions] lists every
    object [model.start_chat] has returned, and a session handle is an
    index into it. *)
Record State := {
  conversations : gmap Z nat;
  sessions : list ChatSession;
  calls : list Call;
  log : list LogRecord
}.

Definition initial_state : State :=
  {| conversations := ∅; sessions := []; calls := []; log := [] |}.

Definition with_conversations (f : gmap Z nat -> gmap Z nat) (st : State) : State :=
  {| conversations := f (conversations st); sessions := sessions st;
     calls := calls st; log := log st |}.

Definition with_sessions (f : list ChatSession -> list ChatSession) (st : State) : State :=
  {| conversations := conversations st; sessions := f (sessions st);
     calls := calls st; log := log st |}.

Definition record_call (c : Call) (st : State) : State :=
  {| conversations := conversations st; sessions := sessions st;
     calls := calls st ++ [c]; log := log st |}.

Definition record_log (r : LogRecord) (st : State) : State :=
  {| conversations := conversations st; sessions := sessions st;
     calls := calls st; log := log st ++ [r] |}.

(** ** The state-and-exception monad *)

Inductive Outcome (A : Type) :=
| Returns (a : A)
| Raises (e : Exn).
Arguments Returns {A} a.
Arguments Raises {A} e.

Definition M (A : Type) : Type := State -> State * Outcome A.

Definition ret {A} (a : A) : M A := fun st => (st, Returns a).

Definition raise {A} (e : Exn) : M A := fun st => (st, Raises e).

Definition bind {A B} (m : M A) (k : A -> M B) : M B :=
  fun st =>
    match m st with
    | (st', Returns a) => k a st'
    | (st', Raises e) => (st', Raises e)
    end.

(** [try: m except Exception as e: h e] *)
Definition try_except {A} (m : M A) (h : Exn -> M A) : M A :=
  fun st =>
    match m st with
    | (st', Returns a) => (st', Returns a)
    | (st', Raises e) => h e st'
    end.

Declare Scope py_scope.
Delimit Scope py_scope with py.
Notation "x <- m ;; k" := (bind m (fun x => k))
  (at level 100, m at next level, right associativity) : py_scope.
Notation "m ;; k" := (bind m (fun _ => k))
  (at level 100, right associativity) : py_scope.
Open Scope py_scope.

(** ** Primitive operations *)

Definition logger_info (msg : string) : M unit :=
  fun st => (record_log {| levelname := INFO; log_msg := msg; exc_info := None |} st,
             Returns tt).

Definition logger_warning (msg : string) : M unit :=
  fun st => (record_log {| levelname := WARNING; log_msg := msg; exc_info := None |} st,
             Returns tt).

(** [logger.error(msg, exc_info=True)] inside [except ... as e]. *)
Definition logger_error (msg : string) (e : Exn) : M unit :=
  fun st => (record_log {| levelname := ERROR; log_msg := msg; exc_info := Some e |} st,
             Returns tt).

(** [model.start_chat(history=h)]: a new session object. *)
Definition start_chat (h : list Content) : M nat :=
  fun st => (with_sessions (fun ss => ss ++ [{| history := h |}]) st,
             Returns (length (sessions st))).

(** [chat_id in conversations] *)
Definition conversations_contains (chat_id : Z) : M bool :=
  fun st => (st, Returns (bool_decide (is_Some (conversations st !! chat_id)))).

(** [conversations[chat_id] = session] *)
Definition conversations_set (chat_id : Z) (session : nat) : M unit :=
  fun st => (with_conversations (fun m => <[chat_id := session]> m) st, Returns tt).

(** [conversations[chat_id]]; Python raises [KeyError] on a missing key. *)
Definition conversations_get (chat_id : Z) : M nat :=
  fun st =>
    match conversations st !! chat_id with
    | Some session => ret session st
    | None => raise {| exn_class := KeyError; exn_msg := pretty chat_id |} st
    end.

Definition outcome_of (r : option Exn) : Outcome unit :=
  match r with None => Returns tt | Some e => Raises e end.

(** [await context.bot.send_chat_action(chat_id=chat_id, action=action)] *)
Definition bot_send_chat_action (env : Env) (chat_id : Z) (action : string) : M unit :=
  fun st =>
    let r := on_send_chat_action env (length (calls st)) chat_id action in
    (record_call (SendChatAction chat_id action r) st, outcome_of r).

(** [await context.bot.send_message(chat_id=chat_id, text=text)] *)
Definition bot_send_message (env : Env) (chat_id : Z) (text : string) : M unit :=
  fun st =>
    let r := on_send_message env (length (calls st)) chat_id text in
    (record_call (SendMessage chat_id text r) st, outcome_of r).

Definition append_history (turns : list Content) (s : ChatSession) : ChatSession :=
  {| history := history s ++ turns |}.

(** [chat_session.send_message(prompt)] *)
Definition chat_session_send_message (env : Env) (session : nat) (prompt : string)
  : M Response :=
  fun st =>
    let r := on_chat_send_message env (length (calls st)) session prompt in
    let st' := record_call (ChatSendMessage session prompt r) st in
    match r with
    | inl e => (st', Raises e)
    | inr response =>
        (with_sessions
           (alter (append_history [UserTurn prompt; ModelTurn response]) session) st',
         Returns response)
    end.

(** ** Fixed texts *)

Definition nl : string := String "010"%char EmptyString.

(** The placeholder used when [update.effective_user] is [None]. *)
Definition DEFAULT_FIRST_NAME : string := "दोस्त".

Definition welcome_text (user_first_name : string) : string :=
  "Hi " +:+ user_first_name +:+ "! 👋" +:+ nl +:+
  "Main Kritika hoon – aapki English Teacher. 💡" +:+ nl +:+
  "Main aapko 90 dino mein basic se advanced English sikhane wali hoon, step-by-step." +:+ nl +:+
  "Har din aapko grammar aur translation ka ek chhota task milega." +:+ nl +:+
  "Shuruaat karein? ✨".

(** Sent when the Gemini response carries no text (line 141). *)
Definition NO_TEXT_FALLBACK : string :=
  "माफ़ करें, कुछ गड़बड़ हो गई। मैं अभी जवाब नहीं दे पा रही हूँ।".

(** Sent from the [except] clause (line 147). *)
Definition ERROR_FALLBACK : string :=
  "क्षमा करें, मुझे जवाब देने में परेशानी हो रही है। कृपया बाद में कोशिश करें।".

Definition build_prompt (user_first_name user_message : string) : string :=
  "उपयोगकर्ता का नाम: " +:+ user_first_name +:+ nl +:+
  "उपयोगकर्ता का संदेश: " +:+ user_message.

Definition first_name_of (update : Update) : string :=
  match effective_user update with
  | Some u => first_name u
  | None => DEFAULT_FIRST_NAME
  end.

Definition user_message_of (update : Update) : option string :=
  match message update with
  | Some m => msg_text m
  | None => None
  end.

(** ** Session registry *)

(** Line 84: [conversations[chat_id] = model.start_chat(history=[])]. *)
Definition reset (chat_id : Z) : M nat :=
  session <- start_chat [] ;;
  conversations_set chat_id session ;;
  ret session.

(** Lines 108-112: create the session on first contact, then read it. *)
Definition get_or_create (chat_id : Z) : M nat :=
  known <- conversations_contains chat_id ;;
  (if negb known then
     session <- start_chat [] ;;
     conversations_set chat_id session ;;
     logger_info ("Initialized new chat session for chat_id=" +:+ pretty chat_id)
   else ret tt) ;;
  conversations_get chat_id.

(** ** Handlers *)

Definition start (env : Env) (update : Update) : M unit :=
  let chat_id := effective_chat_id update in
  let user_first_name := first_name_of update in
  reset chat_id ;;
  logger_info ("Started new chat session for chat_id=" +:+ pretty chat_id) ;;
  bot_send_message env chat_id (welcome_text user_first_name).

(** [hasattr(x, 'text') and x.text], given what reading [x.text] does:
    [hasattr] answers [False] when the read raises [AttributeError] and
    lets every other exception through.  The result is the text when the
    condition is true and [None] when it is false. *)
Definition text_if_truthy (read : Read (option string)) : Outcome (option string) :=
  match read with
  | Value v => Returns (if truthy_opt v then v else None)
  | ReadError e => if is_AttributeError e then Returns None else Raises e
  end.

(** The [for part in response.parts] loop of lines 129-132; the result
    is the value of [bot_reply] after the loop. *)
Fixpoint first_part_text (parts : list Part) : Outcome string :=
  match parts with
  | [] => Returns ""
  | part :: rest =>
      match text_if_truthy (part_text part) with
      | Returns (Some t) => Returns t
      | Returns None => first_part_text rest
      | Raises e => Raises e
      end
  end.

(** Lines 125-132: the value of [bot_reply], or the exception that
    reading the response raises. *)
Definition extract_reply (response : Response) : Outcome string :=
  match text_if_truthy (response_text response) with
  | Returns (Some t) => Returns t
  | Returns None =>
      match response_parts response with
      | Value [] => Returns ""
      | Value parts => first_part_text parts
      | ReadError e => Raises e
      end
  | Raises e => Raises e
  end.

(** An outcome computed without touching the state. *)
Definition of_outcome {A} (o : Outcome A) : M A := fun st => (st, o).

(** Lines 134-142. *)
Definition send_reply (env : Env) (chat_id : Z) (response : Response) (bot_reply : string)
  : M unit :=
  if truthy bot_reply then
    logger_info ("Sending reply: '" +:+ bot_reply +:+ "'") ;;
    bot_send_message env chat_id bot_reply
  else
    logger_warning ("No text in Gemini response: " +:+ response_str response) ;;
    bot_send_message env chat_id NO_TEXT_FALLBACK.

(** Lines 115-142: the body of the [try] statement. *)
Definition try_body (env : Env) (chat_id : Z) (user_first_name user_message : string)
    (chat_session : nat) : M unit :=
  bot_send_chat_action env chat_id "typing" ;;
  let prompt := build_prompt user_first_name user_message in
  logger_info ("Sending to Gemini: '" +:+ prompt +:+ "'") ;;
  response <- chat_session_send_message env chat_session prompt ;;
  logger_info ("Raw Gemini response: " +:+ response_str response) ;;
  bot_reply <- of_outcome (extract_reply response) ;;
  send_reply env chat_id response bot_reply.

(** Lines 143-148: the [except Exception as e] clause. *)
Definition except_clause (env : Env) (chat_id : Z) (e : Exn) : M unit :=
  logger_error ("Error with Gemini API for chat_id=" +:+ pretty chat_id +:+ ": " +:+ exn_msg e) e ;;
  bot_send_message env chat_id ERROR_FALLBACK.

Definition generate_response (env : Env) (update : Update) : M unit :=
  let chat_id := effective_chat_id update in
  let user_message := user_message_of update in
  let user_first_name := first_name_of update in
  if negb (truthy_opt user_message) then
    logger_info ("Non-text or empty message from chat_id=" +:+ pretty chat_id)
  else
    let user_message := default "" user_message in
    logger_info ("Received message from chat_id=" +:+ pretty chat_id +:+ ": '" +:+ user_message +:+ "'") ;;
    chat_session <- get_or_create chat_id ;;
    try_except
      (try_body env chat_id user_first_name user_message chat_session)
      (except_clause env chat_id).

(** ** Process start-up and the polling loop *)

(** What [os.environ.get] returns for the two secrets. *)
Record Environ := {
  GOOGLE_API_KEY : option string;
  TELEGRAM_BOT_TOKEN : option string
}.

Definition critical (msg : string) (exc : option Exn) : LogRecord :=
  {| levelname := CRITICAL; log_msg := msg; exc_info := exc |}.

(** Lines 17-26, the body of the [try] statement of the API key setup.
    [configure] is the answer of [genai.configure(api_key=...)]. *)
Definition load_api_keys (environ : Environ) (configure : string -> option Exn)
  : Exn + string * string :=
  if negb (truthy_opt (GOOGLE_API_KEY environ)) then
    inl {| exn_class := ValueError;
           exn_msg := "GOOGLE_API_KEY not found in environment variables." |}
  else if negb (truthy_opt (TELEGRAM_BOT_TOKEN environ)) then
    inl {| exn_class := ValueError;
           exn_msg := "TELEGRAM_BOT_TOKEN not found in environment variables." |}
  else
    let key := default "" (GOOGLE_API_KEY environ) in
    match configure key with
    | Some e => inl e
    | None => inr (key, default "" (TELEGRAM_BOT_TOKEN environ))
    end.

(** How the API key setup ends: the keys are loaded, or [sys.exit]. *)
Inductive Setup :=
| Loaded (google_api_key telegram_bot_token : string)
| SysExit (status : Z).

(** Lines 16-35. *)
Definition api_key_setup (environ : Environ) (configure : string -> option Exn)
  : list LogRecord * Setup :=
  match load_api_keys environ configure with
  | inr (key, token) =>
      ([{| levelname := INFO;
           log_msg := "Successfully loaded API keys from environment variables.";
           exc_info := None |}],
       Loaded key token)
  | inl e =>
      if is_ValueError e then
        ([critical ("Failed to load API keys: " +:+ exn_msg e +:+ ". Exiting.") None],
         SysExit 1)
      else
        ([critical ("An unexpected error occurred during API key setup: " +:+ exn_msg e)
            (Some e)],
         SysExit 1)
  end.

(** The two kinds of update routed to a handler (lines 152-153): the
    [/start] command and a text message that is not a command. *)
Inductive Event :=
| StartCommand (update : Update)
| TextMessage (update : Update).

Definition handle (env : Env) (ev : Event) : M unit :=
  match ev with
  | StartCommand update => start env update
  | TextMessage update => generate_response env update
  end.

(** Modelled from the spec: the dispatcher of [application.run_polling]
    belongs to the Telegram client library and is not in the source.
    Following section 7 (propagation policy), it hands each update to its
    handler, and an error raised by a handler ends that update only: the
    loop goes on with the next one.  The second component counts the
    updates handed to a handler. *)
Fixpoint run_polling (env : Env) (events : list Event) (st : State) : State * nat :=
  match events with
  | [] => (st, O)
  | ev :: rest =>
      let (st', n) := run_polling env rest (fst (handle env ev st)) in
      (st', S n)
  end.

(** Lines 156-160. *)
Definition main (env : Env) (events : list Event) (st : State) : State * nat :=
  run_polling env events
    (record_log {| levelname := INFO;
                   log_msg := "Starting bot with continuous polling...";
                   exc_info := None |} st).

(** A finished run of the script: the exit status of the process, the
    final state and the number of updates that reached a handler. *)
Record Run := {
  exit_status : Z;
  final : State;
  handled : nat
}.

(** The script from top to bottom, fed with the updates [events]. *)
Definition script (environ : Environ) (configure : string -> option Exn)
    (env : Env) (events : list Event) : Run :=
  match api_key_setup environ configure with
  | (records, SysExit status) =>
      {| exit_status := status;
         final := {| conversations := ∅; sessions := []; calls := []; log := records |};
         handled := O |}
  | (records, Loaded _ _) =>
      let (st, n) :=
        main env events
          {| conversations := ∅; sessions := []; calls := []; log := records |} in
      {| exit_status := 0; final := st; handled := n |}
  end.

(** ** Observations on a run of a handler *)

(** The client calls made between two states of one run. *)
Definition calls_since (st st' : State) : list Call :=
  drop (length (calls st)) (calls st').

(** The outbound messages a list of calls hands to [send_message]. *)
Fixpoint emitted (cs : list Call) : list (Z * string) :=
  match cs with
  | [] => []
  | SendMessage chat_id text _ :: rest => (chat_id, text) :: emitted rest
  | _ :: rest => emitted rest
  end.

(** Those of them whose [send_message] call returned. *)
Fixpoint delivered (cs : list Call) : list (Z * string) :=
  match cs with
  | [] => []
  | SendMessage chat_id text None :: rest => (chat_id, text) :: delivered rest
  | _ :: rest => delivered rest
  end.

(** The prompts submitted to a chat session. *)
Fixpoint submitted (cs : list Call) : list (nat * string) :=
  match cs with
  | [] => []
  | ChatSendMessage session prompt _ :: rest => (session, prompt) :: submitted rest
  | _ :: rest => submitted rest
  end.

(** An event the handlers do not silently ignore: a start event, or a
    message event with non-empty text. *)
Definition not_ignored (ev : Event) : bool :=
  match ev with
  | StartCommand _ => true
  | TextMessage update => truthy_opt (user_message_of update)
  end.

Definition chat_of (ev : Event) : Z :=
  match ev with
  | StartCommand update | TextMessage update => effective_chat_id update
  end.

(** Every session the registry refers to has been created. *)
Definition registry_wf (st : State) : Prop :=
  ∀ (chat_id : Z) (session : nat),
    conversations st !! chat_id = Some session → (session < length (sessions st))%nat.

(** ** Sample environments and updates *)

Definition network_error : Exn :=
  {| exn_class := NetworkError; exn_msg := "httpx.ConnectError" |}.

(** Every client call returns; Gemini answers with the direct text "Hello". *)
Definition hello_response : Response :=
  {| response_text := Value (Some "Hello"); response_parts := Value [];
     response_str := "response" |}.

Definition env_ok : Env :=
  {| on_send_chat_action := fun _ _ _ => None;
     on_send_message := fun _ _ _ => None;
     on_chat_send_message := fun _ _ _ => inr hello_response |}.

(** The Telegram client is unreachable: both of its calls raise. *)
Definition env_telegram_down : Env :=
  {| on_send_chat_action := fun _ _ _ => Some network_error;
     on_send_message := fun _ _ _ => Some network_error;
     on_chat_send_message := fun _ _ _ => inr hello_response |}.

(** Gemini answers, but no outbound message gets through. *)
Definition env_send_fails : Env :=
  {| on_send_chat_action := fun _ _ _ => None;
     on_send_message := fun _ _ _ => Some network_error;
     on_chat_send_message := fun _ _ _ => inr hello_response |}.

(** Only the typing indicator fails. *)
Definition env_typing_fails : Env :=
  {| on_send_chat_action := fun _ _ _ => Some network_error;
     on_send_message := fun _ _ _ => None;
     on_chat_send_message := fun _ _ _ => inr hello_response |}.

(** Only the Gemini call fails. *)
Definition env_gemini_fails : Env :=
  {| on_send_chat_action := fun _ _ _ => None;
     on_send_message := fun _ _ _ => None;
     on_chat_send_message := fun _ _ _ => inl network_error |}.

(** Every client call returns; Gemini answers with the direct text "I am well". *)
Definition i_am_well : Env :=
  {| on_send_chat_action := fun _ _ _ => None;
     on_send_message := fun _ _ _ => None;
     on_chat_send_message := fun _ _ _ =>
       inr {| response_text := Value (Some "I am well"); response_parts := Value [];
              response_str := "response" |} |}.

(** A response whose direct text is empty and whose third part is the
    first one with a non-empty text. *)
Definition parts_response : Response :=
  {| response_text := Value (Some "");
     response_parts :=
       Value [{| part_text := Value None |}; {| part_text := Value (Some "") |};
              {| part_text := Value (Some "first") |};
              {| part_text := Value (Some "second") |}];
     response_str := "response" |}.

(** A response without parts whose [text] property raises [ValueError],
    as the Gemini client's response does when the model returned no part. *)
Definition no_parts_error : Exn :=
  {| exn_class := ValueError;
     exn_msg := "Invalid operation: The `response.text` quick accessor requires the response to contain a valid `Part`, but none were returned." |}.

Definition blocked_response : Response :=
  {| response_text := ReadError no_parts_error; response_parts := Value [];
     response_str := "response" |}.

(** Every client call returns; Gemini answers with [blocked_response]. *)
Definition env_blocked : Env :=
  {| on_send_chat_action := fun _ _ _ => None;
     on_send_message := fun _ _ _ => None;
     on_chat_send_message := fun _ _ _ => inr blocked_response |}.

(** A response whose direct text and parts carry no text. *)
Definition empty_response : Response :=
  {| response_text := Value None;
     response_parts := Value [{| part_text := Value None |}];
     response_str := "response" |}.

(** Every client call returns; Gemini answers with [empty_response]. *)
Definition env_empty : Env :=
  {| on_send_chat_action := fun _ _ _ => None;
     on_send_message := fun _ _ _ => None;
     on_chat_send_message := fun _ _ _ => inr empty_response |}.

Definition asha : User := {| first_name := "Asha" |}.

Definition update_text (chat_id : Z) (text : string) : Update :=
  {| effective_chat_id := chat_id; effective_user := Some asha;
     message := Some {| msg_text := Some text |} |}.

Definition update_no_text (chat_id : Z) : Update :=
  {| effective_chat_id := chat_id; effective_user := Some asha;
     message := Some {| msg_text := None |} |}.

(** ** States and texts along a run of the message handler *)

(** The session object [model.start_chat(history=[])] returns. *)
Definition new_session : ChatSession := {| history := [] |}.

(** The state after lines 109-110 ran for a chat id without a session. *)
Definition created (chat_id : Z) (st : State) : State :=
  record_log
    {| levelname := INFO;
       log_msg := "Initialized new chat session for chat_id=" +:+ pretty chat_id;
       exc_info := None |}
    (with_conversations (fun m => <[chat_id := length (sessions st)]> m)
       (with_sessions (fun ss => ss ++ [new_session]) st)).

(** The state after line 84 ran. *)
Definition restarted (chat_id : Z) (st : State) : State :=
  with_conversations (fun m => <[chat_id := length (sessions st)]> m)
    (with_sessions (fun ss => ss ++ [new_session]) st).

(** The state after line 106 ran. *)
Definition received (update : Update) (st : State) : State :=
  record_log
    {| levelname := INFO;
       log_msg := "Received message from chat_id=" +:+ pretty (effective_chat_id update)
                  +:+ ": '" +:+ default "" (user_message_of update) +:+ "'";
       exc_info := None |} st.

(** The state after lines 108-112 ran, and the session they select. *)
Definition resolved (chat_id : Z) (st : State) : State :=
  match conversations st !! chat_id with
  | Some _ => st
  | None => created chat_id st
  end.

Definition session_for (chat_id : Z) (st : State) : nat :=
  default (length (sessions st)) (conversations st !! chat_id).

(** The prompt line 118 builds for an update. *)
Definition prompt_of (update : Update) : string :=
  build_prompt (first_name_of update) (default "" (user_message_of update)).

(** The text lines 134-142 hand to [send_message], given [bot_reply]. *)
Definition payload (bot_reply : string) : string :=
  if truthy bot_reply then bot_reply else NO_TEXT_FALLBACK.

(** The record line 144 writes. *)
Definition failure_record (chat_id : Z) (e : Exn) : LogRecord :=
  {| levelname := ERROR;
     log_msg := "Error with Gemini API for chat_id=" +:+ pretty chat_id +:+ ": " +:+ exn_msg e;
     exc_info := Some e |}.

(** The client calls one run of [generate_response] on a text message can
    make, with the way the run ends.  [c] is the chat id, [s] the chat
    session and [p] the prompt. *)
Inductive message_run (c : Z) (s : nat) (p : string) : list Call → Outcome unit → Prop :=
| run_typing_raised (e : Exn) (r : option Exn) :
    message_run c s p
      [SendChatAction c "typing" (Some e); SendMessage c ERROR_FALLBACK r]
      (outcome_of r)
| run_gemini_raised (e : Exn) (r : option Exn) :
    message_run c s p
      [SendChatAction c "typing" None; ChatSendMessage s p (inl e);
       SendMessage c ERROR_FALLBACK r]
      (outcome_of r)
| run_extraction_raised (response : Response) (e : Exn) (r : option Exn) :
    extract_reply response = Raises e →
    message_run c s p
      [SendChatAction c "typing" None; ChatSendMessage s p (inr response);
       SendMessage c ERROR_FALLBACK r]
      (outcome_of r)
| run_reply_sent (response : Response) (reply : string) :
    extract_reply response = Returns reply →
    message_run c s p
      [SendChatAction c "typing" None; ChatSendMessage s p (inr response);
       SendMessage c (payload reply) None]
      (Returns tt)
| run_reply_raised (response : Response) (reply : string) (e : Exn) (r : option Exn) :
    extract_reply response = Returns reply →
    message_run c s p
      [SendChatAction c "typing" None; ChatSendMessage s p (inr response);
       SendMessage c (payload reply) (Some e); SendMessage c ERROR_FALLBACK r]
      (outcome_of r).

(** The client calls the [try] body (lines 115-142) can make, with the
    way the body ends. *)
Inductive body_run (c : Z) (s : nat) (p : string) : list Call → Outcome unit → Prop :=
| body_typing_raised (e : Exn) :
    body_run c s p [SendChatAction c "typing" (Some e)] (Raises e)
| body_gemini_raised (e : Exn) :
    body_run c s p
      [SendChatAction c "typing" None; ChatSendMessage s p (inl e)]
      (Raises e)
| body_extraction_raised (response : Response) (e : Exn) :
    extract_reply response = Raises e →
    body_run c s p
      [SendChatAction c "typing" None; ChatSendMessage s p (inr response)]
      (Raises e)
| body_replied (response : Response) (reply : string) (r : option Exn) :
    extract_reply response = Returns reply →
    body_run c s p
      [SendChatAction c "typing" None; ChatSendMessage s p (inr response);
       SendMessage c (payload reply) r]
      (outcome_of r).




(** ** The reply as the specification words it *)



(** ** Four sentences of the specification, as they are written *)

(** "Every successful or degraded run emits exactly one outbound message",
    counting the messages handed to [send_message] ... *)
Definition exactly_one_emitted : Prop :=
  ∀ (env : Env) (ev : Event) (st : State),
    not_ignored ev = true →
    length (emitted (calls_since st (fst (handle env ev st)))) = 1%nat.

(** ... or counting those whose [send_message] call returned. *)
Definition exactly_one_delivered : Prop :=
  ∀ (env : Env) (ev : Event) (st : State),
    not_ignored ev = true →
    length (delivered (calls_since st (fst (handle env ev st)))) = 1%nat.

(** "If any step from 3-7 raises an error, do not propagate it to the
    caller; instead emit a fixed localized fallback message": the handler
    returns normally and the fallback is among the emitted messages. *)
Definition errors_never_propagate : Prop :=
  ∀ (env : Env) (update : Update) (st st2 : State) (e : Exn),
    let c := effective_chat_id update in
    truthy_opt (user_message_of update) = true →
    try_body env c (first_name_of update) (default "" (user_message_of update))
      (session_for c st) (resolved c (received update st)) = (st2, Raises e) →
    snd (generate_response env update st) = Returns tt ∧
    (c, ERROR_FALLBACK) ∈ emitted (calls_since st (fst (generate_response env update st))).

(** "Failure of this step [the activity indicator] does not block the
    remaining flow": the prompt is still submitted to the chat session. *)
Definition typing_failure_not_blocking : Prop :=
  ∀ (env : Env) (update : Update) (st : State) (e : Exn),
    let c := effective_chat_id update in
    truthy_opt (user_message_of update) = true →
    on_send_chat_action env (length (calls st)) c "typing" = Some e →
    submitted (calls_since st (fst (generate_response env update st)))
    = [(session_for c st, prompt_of update)].




(** ** Further observations *)

(** No two chat ids share a session object. *)
Definition registry_inj (st : State) : Prop :=
  ∀ (c1 c2 : Z) (session : nat),
    conversations st !! c1 = Some session →
    conversations st !! c2 = Some session → c1 = c2.

(** The states the module can be in between two handler runs: the state
    the module starts with, and the state any run of a handler leaves
    behind, whether the run returned or raised.  Runs do not overlap. *)
Inductive reachable : State → Prop :=
| reachable_initial : reachable initial_state
| reachable_handle (env : Env) (ev : Event) (st : State) :
    reachable st → reachable (fst (handle env ev st)).

(** The log records written between two states of one run. *)
Definition log_since (st st' : State) : list LogRecord :=
  drop (length (log st)) (log st').

Definition is_error_record (r : LogRecord) : bool :=
  match levelname r with ERROR | CRITICAL => true | _ => false end.

(** The records of level ERROR or CRITICAL among a list of records. *)
Definition error_records (records : list LogRecord) : list LogRecord :=
  filter (λ r, is_error_record r = true) records.

(** A state in which chat 1 has a session. *)
Definition state_with_chat_1 : State :=
  fst (start env_ok (update_text 1 "/start") initial_state).
(** * Properties *)

(** ** The monad and the primitives *)

Lemma outcome_of_returns (r : option Exn) : outcome_of r = Returns tt ↔ r = None.
Proof. destruct r; simpl; split; congruence. Qed.

Lemma outcome_of_raises (r : option Exn) (e : Exn) : outcome_of r = Raises e ↔ r = Some e.
Proof. destruct r; simpl; split; congruence. Qed.

Lemma calls_since_app (st st' : State) (cs : list Call) :
  calls st' = calls st ++ cs → calls_since st st' = cs.
Proof. intros H. unfold calls_since. rewrite H. apply drop_app_length. Qed.


(** ** The registry operations *)

Lemma get_or_create_existing (chat_id : Z) (st : State) (session : nat) :
  conversations st !! chat_id = Some session →
  get_or_create chat_id st = (st, Returns session).
Proof.
  intros H. unfold get_or_create, bind, conversations_contains, conversations_get, ret.
  rewrite H. rewrite bool_decide_eq_true_2 by eauto. simpl. rewrite H. reflexivity.
Qed.

Lemma get_or_create_missing (chat_id : Z) (st : State) :
  conversations st !! chat_id = None →
  get_or_create chat_id st = (created chat_id st, Returns (length (sessions st))).
Proof.
  intros H. unfold get_or_create, bind, conversations_contains, conversations_get, ret.
  rewrite H. rewrite bool_decide_eq_false_2 by (intros [? ?]; discriminate).
  simpl. rewrite lookup_insert_eq. reflexivity.
Qed.

Lemma get_or_create_resolved (chat_id : Z) (st : State) :
  get_or_create chat_id st = (resolved chat_id st, Returns (session_for chat_id st)).
Proof.
  unfold resolved, session_for. destruct (conversations st !! chat_id) eqn:H.
  - by apply get_or_create_existing.
  - by apply get_or_create_missing.
Qed.

Lemma resolved_lookup (chat_id : Z) (st : State) :
  conversations (resolved chat_id st) !! chat_id = Some (session_for chat_id st).
Proof.
  unfold resolved, session_for. destruct (conversations st !! chat_id) eqn:H; simpl.
  - done.
  - apply lookup_insert_eq.
Qed.

Lemma resolved_calls (chat_id : Z) (st : State) : calls (resolved chat_id st) = calls st.
Proof. unfold resolved. by destruct (conversations st !! chat_id). Qed.

Lemma reset_restarted (chat_id : Z) (st : State) :
  reset chat_id st = (restarted chat_id st, Returns (length (sessions st))).
Proof. reflexivity. Qed.

Lemma restarted_session (chat_id : Z) (st : State) :
  sessions (restarted chat_id st) !! length (sessions st) = Some new_session.
Proof. simpl. by rewrite lookup_app_r, Nat.sub_diag. Qed.

(** ** Well-formed registries *)

Lemma registry_wf_initial : registry_wf initial_state.
Proof. intros c s H. simpl in H. by rewrite lookup_empty in H. Qed.

Lemma registry_wf_restarted (chat_id : Z) (st : State) :
  registry_wf st → registry_wf (restarted chat_id st).
Proof.
  intros Hwf c s. simpl. rewrite length_app. simpl.
  destruct (decide (chat_id = c)) as [->|Hne].
  - rewrite lookup_insert_eq. intros [= <-]. lia.
  - rewrite lookup_insert_ne by done. intros H%Hwf. lia.
Qed.

Lemma registry_wf_resolved (chat_id : Z) (st : State) :
  registry_wf st → registry_wf (resolved chat_id st).
Proof.
  intros Hwf. unfold resolved. destruct (conversations st !! chat_id) eqn:H; [done|].
  apply (registry_wf_restarted chat_id st Hwf).
Qed.

(** ** Unfolding the handlers *)

Lemma start_eq (env : Env) (update : Update) (st : State) :
  start env update st =
  bot_send_message env (effective_chat_id update) (welcome_text (first_name_of update))
    (record_log
       {| levelname := INFO;
          log_msg := "Started new chat session for chat_id=" +:+ pretty (effective_chat_id update);
          exc_info := None |}
       (restarted (effective_chat_id update) st)).
Proof. reflexivity. Qed.

Lemma generate_response_ignored (env : Env) (update : Update) (st : State) :
  truthy_opt (user_message_of update) = false →
  generate_response env update st =
  (record_log
     {| levelname := INFO;
        log_msg := "Non-text or empty message from chat_id=" +:+ pretty (effective_chat_id update);
        exc_info := None |} st,
   Returns tt).
Proof. intros H. unfold generate_response. rewrite H. reflexivity. Qed.

Lemma generate_response_eq (env : Env) (update : Update) (st : State) :
  truthy_opt (user_message_of update) = true →
  generate_response env update st =
  try_except
    (try_body env (effective_chat_id update) (first_name_of update)
       (default "" (user_message_of update))
       (session_for (effective_chat_id update) st))
    (except_clause env (effective_chat_id update))
    (resolved (effective_chat_id update) (received update st)).
Proof.
  intros H. unfold generate_response. rewrite H.
  change (negb true) with false. cbv iota.
  unfold bind, logger_info.
  pose proof (get_or_create_resolved (effective_chat_id update) (received update st)) as E.
  unfold received in E at 1. rewrite E. reflexivity.
Qed.

Lemma send_reply_eq (env : Env) (c : Z) (response : Response) (reply : string)
    (st : State) :
  send_reply env c response reply st =
  bot_send_message env c (payload reply)
    (record_log
       (if truthy reply
        then {| levelname := INFO;
                log_msg := "Sending reply: '" +:+ reply +:+ "'";
                exc_info := None |}
        else {| levelname := WARNING;
                log_msg := "No text in Gemini response: " +:+ response_str response;
                exc_info := None |}) st).
Proof. unfold send_reply, payload. by destruct (truthy reply). Qed.

(** The [try] body: its client calls follow one of the four shapes of
    [body_run]; it leaves the registry alone and creates no session. *)
Lemma try_body_run (env : Env) (c : Z) (name text : string) (s : nat) (st : State) :
  ∃ st' o cs,
    try_body env c name text s st = (st', o) ∧
    body_run c s (build_prompt name text) cs o ∧
    calls st' = calls st ++ cs ∧
    conversations st' = conversations st ∧
    length (sessions st') = length (sessions st).
Proof.
  unfold try_body, bind, bot_send_chat_action, logger_info.
  destruct (on_send_chat_action env (length (calls st)) c "typing") as [e|]; simpl.
  - eexists _, _, _. split; [reflexivity|]. simpl.
    split; [apply body_typing_raised|]. done.
  - unfold chat_session_send_message. simpl.
    destruct (on_chat_send_message env _ s _) as [e|response]; simpl.
    + eexists _, _, _. split; [reflexivity|]. simpl.
      split; [apply body_gemini_raised|].
      split; [rewrite <- !app_assoc; reflexivity|]. done.
    + unfold of_outcome.
      destruct (extract_reply response) as [reply|e] eqn:Hx.
      * rewrite send_reply_eq. unfold bot_send_message. simpl.
        eexists _, _, _. split; [reflexivity|]. simpl.
        split; [by apply body_replied|].
        split; [rewrite <- !app_assoc; reflexivity|].
        split; [done|]. by rewrite length_alter.
      * eexists _, _, _. split; [reflexivity|]. simpl.
        split; [by apply body_extraction_raised|].
        split; [rewrite <- !app_assoc; reflexivity|].
        split; [done|]. by rewrite length_alter.
Qed.

Lemma guarded_returns (env : Env) (c : Z) (name text : string) (s : nat) (st st2 : State) :
  try_body env c name text s st = (st2, Returns tt) →
  try_except (try_body env c name text s) (except_clause env c) st = (st2, Returns tt).
Proof. intros H. unfold try_except. by rewrite H. Qed.

Lemma guarded_raises (env : Env) (c : Z) (name text : string) (s : nat) (st st2 : State)
    (e : Exn) :
  try_body env c name text s st = (st2, Raises e) →
  try_except (try_body env c name text s) (except_clause env c) st =
  (record_call
     (SendMessage c ERROR_FALLBACK (on_send_message env (length (calls st2)) c ERROR_FALLBACK))
     (record_log (failure_record c e) st2),
   outcome_of (on_send_message env (length (calls st2)) c ERROR_FALLBACK)).
Proof. intros H. unfold try_except. by rewrite H. Qed.

(** The guarded part of the message handler (lines 114-148): its client
    calls follow one of the five shapes of [message_run]. *)
Lemma guarded_run (env : Env) (c : Z) (name text : string) (s : nat) (st : State) :
  ∃ st' o cs,
    try_except (try_body env c name text s) (except_clause env c) st = (st', o) ∧
    message_run c s (build_prompt name text) cs o ∧
    calls st' = calls st ++ cs ∧
    conversations st' = conversations st ∧
    length (sessions st') = length (sessions st).
Proof.
  destruct (try_body_run env c name text s st) as (st2 & o & cs & E & Hb & Hc & Hm & Hs).
  destruct o as [[]|e].
  - rewrite (guarded_returns _ _ _ _ _ _ _ E).
    exists st2, (Returns tt), cs. split; [done|]. split; [|done].
    inversion Hb as [| | |response reply r Hx Hcs Ho].
    apply outcome_of_returns in Ho as ->. by apply run_reply_sent.
  - rewrite (guarded_raises _ _ _ _ _ _ _ _ E).
    eexists _, _, (cs ++ [SendMessage c ERROR_FALLBACK _]). split; [reflexivity|]. simpl.
    rewrite Hc, <- app_assoc. split; [|done].
    inversion Hb as [e0|e0|response e0 Hx|response reply r Hx Hcs Ho]; simpl.
    + apply run_typing_raised.
    + apply run_gemini_raised.
    + eapply run_extraction_raised. exact Hx.
    + apply outcome_of_raises in Ho as ->. by apply run_reply_raised.
Qed.

Lemma generate_response_run (env : Env) (update : Update) (st : State) :
  truthy_opt (user_message_of update) = true →
  let c := effective_chat_id update in
  ∃ st' o cs,
    generate_response env update st = (st', o) ∧
    message_run c (session_for c st) (prompt_of update) cs o ∧
    calls st' = calls st ++ cs ∧
    conversations st' = conversations (resolved c st) ∧
    length (sessions st') = length (sessions (resolved c st)).
Proof.
  intros H c. rewrite generate_response_eq by done. fold c.
  destruct (guarded_run env c (first_name_of update) (default "" (user_message_of update))
              (session_for c st) (resolved c (received update st)))
    as (st' & o & cs & E & Hr & Hc & Hm & Hs).
  exists st', o, cs. split; [done|]. rewrite Hc, Hm, Hs, resolved_calls.
  split; [done|]. split; [done|].
  unfold resolved. simpl. by destruct (conversations st !! c).
Qed.

Lemma start_run (env : Env) (update : Update) (st : State) :
  let c := effective_chat_id update in
  let text := welcome_text (first_name_of update) in
  let r := on_send_message env (length (calls st)) c text in
  ∃ st', start env update st = (st', outcome_of r) ∧
         calls st' = calls st ++ [SendMessage c text r] ∧
         conversations st' = conversations (restarted c st) ∧
         sessions st' = sessions (restarted c st).
Proof. intros c text r. eexists. split; [reflexivity|]. done. Qed.

(** ** The session registry *)

(** C4.  [get_or_create] returns the session the registry already holds
    for the chat id and leaves the state as it is; when the registry
    holds none it creates a session with an empty history, stores it
    under the chat id and returns it.  In both cases it returns: it never
    raises. *)
Theorem get_or_create_contract (chat_id : Z) (st : State) :
  (∀ session : nat,
     conversations st !! chat_id = Some session →
     get_or_create chat_id st = (st, Returns session)) ∧
  (conversations st !! chat_id = None →
     ∃ st' : State,
       get_or_create chat_id st = (st', Returns (length (sessions st))) ∧
       sessions st !! length (sessions st) = None ∧
       sessions st' = sessions st ++ [new_session] ∧
       sessions st' !! length (sessions st) = Some new_session ∧
       conversations st' = <[chat_id := length (sessions st)]> (conversations st)) ∧
  (∃ (st' : State) (session : nat),
     get_or_create chat_id st = (st', Returns session) ∧
     conversations st' !! chat_id = Some session).
Proof.
  split; [|split].
  - intros session H. by apply get_or_create_existing.
  - intros H. exists (created chat_id st).
    split; [by apply get_or_create_missing|].
    split; [by apply lookup_ge_None_2|].
    split; [done|]. split; [apply restarted_session | done].
  - exists (resolved chat_id st), (session_for chat_id st).
    split; [apply get_or_create_resolved | apply resolved_lookup].
Qed.

Lemma get_or_create_contract_witness :
  (∃ st' : State,
     get_or_create 7 initial_state = (st', Returns 0%nat) ∧
     sessions st' = [new_session]) ∧
  get_or_create 7 (created 7 initial_state) = (created 7 initial_state, Returns 0%nat).
Proof.
  split.
  - destruct (proj1 (proj2 (get_or_create_contract 7 initial_state)) eq_refl)
      as (st' & E & _ & Hs & _).
    exists st'. split; [exact E | exact Hs].
  - exact (proj1 (get_or_create_contract 7 (created 7 initial_state)) 0%nat eq_refl).
Defined.

(** C5.  After a start event the registry holds, for the chat id of the
    event, a session with an empty history that did not exist before and
    that differs from every session the registry held; [get_or_create]
    then returns that session.  A second start event for the same chat id
    creates yet another session, and the registry no longer refers to the
    first one. *)
Theorem start_resets_session (env env' : Env) (update update' : Update) (st : State) :
  registry_wf st →
  effective_chat_id update' = effective_chat_id update →
  let c := effective_chat_id update in
  let st1 := fst (start env update st) in
  let st2 := fst (start env' update' st1) in
  let s1 := length (sessions st) in
  let s2 := length (sessions st1) in
  (conversations st1 !! c = Some s1 ∧
   sessions st1 !! s1 = Some new_session ∧
   sessions st !! s1 = None ∧
   (∀ (c' : Z) (s : nat), conversations st !! c' = Some s → s ≠ s1) ∧
   get_or_create c st1 = (st1, Returns s1)) ∧
  (conversations st2 !! c = Some s2 ∧
   sessions st2 !! s2 = Some new_session ∧
   s1 ≠ s2 ∧
   (∀ c' : Z, conversations st2 !! c' ≠ Some s1)).
Proof.
  intros Hwf Hc c st1 st2 s1 s2.
  assert (H1 : conversations st1 !! c = Some s1) by apply lookup_insert_eq.
  assert (Hs2 : s2 = S s1).
  { unfold s2, st1. simpl. rewrite length_app. simpl. unfold s1. lia. }
  split; [split; [done|]; split; [|split; [|split]]|split; [|split; [|split]]].
  - apply restarted_session.
  - by apply lookup_ge_None_2.
  - intros c' s H%Hwf. unfold s1. lia.
  - by apply get_or_create_existing.
  - unfold st2. simpl. rewrite Hc. apply lookup_insert_eq.
  - apply (restarted_session (effective_chat_id update') st1).
  - lia.
  - intros c'. unfold st2. simpl. rewrite Hc. fold c.
    destruct (decide (c = c')) as [<-|Hne].
    + rewrite lookup_insert_eq. rewrite length_app. simpl. unfold s1. intros [= E]. lia.
    + rewrite lookup_insert_ne by done. unfold st1. simpl. fold c.
      rewrite lookup_insert_ne by done. intros H%Hwf. unfold s1 in *. lia.
Qed.

Lemma start_resets_session_witness :
  conversations
    (fst (start env_ok (update_text 42 "/start")
            (fst (start env_ok (update_text 42 "/start") initial_state)))) !! 42
  = Some 1%nat.
Proof.
  exact (proj1 (proj2 (start_resets_session env_ok env_ok
                         (update_text 42 "/start") (update_text 42 "/start")
                         initial_state registry_wf_initial eq_refl))).
Defined.

(** C10.  [start] sends the welcome message from a state whose registry
    already holds the new session, and nothing undoes that: whatever the
    send does, the registry holds the new session when [start] ends, and
    when the send raises, [start] ends with that error. *)
Theorem start_registers_before_sending (env : Env) (update : Update) (st : State) :
  let c := effective_chat_id update in
  let s := length (sessions st) in
  let text := welcome_text (first_name_of update) in
  let r := on_send_message env (length (calls st)) c text in
  let st' := fst (start env update st) in
  (∃ st0 : State,
     start env update st = bot_send_message env c text st0 ∧
     calls st0 = calls st ∧
     conversations st0 !! c = Some s ∧
     sessions st0 !! s = Some new_session ∧
     conversations st' = conversations st0 ∧
     sessions st' = sessions st0) ∧
  conversations st' !! c = Some s ∧
  sessions st' !! s = Some new_session ∧
  calls st' = calls st ++ [SendMessage c text r] ∧
  (∀ e : Exn, r = Some e → snd (start env update st) = Raises e).
Proof.
  intros c s text r st'.
  split; [|split; [|split; [|split]]].
  - eexists. split; [apply start_eq|]. simpl.
    split; [done|]. split; [apply lookup_insert_eq|].
    split; [apply (restarted_session c st) | done].
  - apply lookup_insert_eq.
  - apply (restarted_session c st).
  - done.
  - intros e He. unfold start, bind, bot_send_message. simpl. fold c text r.
    by rewrite He.
Qed.

Lemma start_registers_before_sending_witness :
  snd (start env_send_fails (update_text 7 "/start") initial_state) = Raises network_error ∧
  conversations (fst (start env_send_fails (update_text 7 "/start") initial_state)) !! 7
  = Some 0%nat.
Proof.
  destruct (start_registers_before_sending env_send_fails (update_text 7 "/start")
              initial_state) as (_ & Hreg & _ & _ & Hraise).
  split; [exact (Hraise network_error eq_refl) | exact Hreg].
Defined.

(** ** Silent ignore *)

(** C2.  On a message event whose text is absent or empty,
    [generate_response] returns without calling either client and
    without touching the registry or the sessions: it only writes one
    INFO record. *)
Theorem generate_response_ignores_empty (env : Env) (update : Update) (st : State) :
  user_message_of update = None ∨ user_message_of update = Some "" →
  ∃ st' : State,
    generate_response env update st = (st', Returns tt) ∧
    calls st' = calls st ∧
    emitted (calls_since st st') = [] ∧
    conversations st' = conversations st ∧
    sessions st' = sessions st.
Proof.
  intros H. eexists. split.
  - apply generate_response_ignored. by destruct H as [-> | ->].
  - simpl. split; [done|]. split; [|done].
    unfold calls_since. simpl. by rewrite drop_all.
Qed.

Lemma generate_response_ignores_empty_witness :
  ∃ st' : State,
    generate_response env_ok (update_no_text 42) initial_state = (st', Returns tt) ∧
    calls st' = calls initial_state ∧
    emitted (calls_since initial_state st') = [] ∧
    conversations st' = conversations initial_state ∧
    sessions st' = sessions initial_state.
Proof.
  apply (generate_response_ignores_empty env_ok (update_no_text 42) initial_state).
  left. reflexivity.
Defined.

(** ** Start-up *)

Lemma api_key_setup_missing (environ : Environ) (configure : string → option Exn) :
  truthy_opt (GOOGLE_API_KEY environ) = false ∨
  truthy_opt (TELEGRAM_BOT_TOKEN environ) = false →
  ∃ name : string,
    (name = "GOOGLE_API_KEY" ∨ name = "TELEGRAM_BOT_TOKEN") ∧
    api_key_setup environ configure =
    ([critical ("Failed to load API keys: " +:+
                (name +:+ " not found in environment variables.") +:+ ". Exiting.") None],
     SysExit 1).
Proof.
  intros H. unfold api_key_setup, load_api_keys.
  destruct (truthy_opt (GOOGLE_API_KEY environ)) eqn:Hg; simpl.
  - destruct H as [H|H]; [discriminate|]. rewrite H. simpl.
    exists "TELEGRAM_BOT_TOKEN". split; [by right | reflexivity].
  - exists "GOOGLE_API_KEY". split; [by left | reflexivity].
Qed.

(** C9.  When either secret is missing from the environment, the script
    writes one CRITICAL record naming the missing variable and exits with
    status 1: [main] is never entered, no update reaches a handler, no
    client call is made and the registry stays empty, whatever updates
    are waiting. *)
Theorem missing_secret_exits (environ : Environ) (configure : string → option Exn)
    (env : Env) (events : list Event) :
  GOOGLE_API_KEY environ = None ∨ TELEGRAM_BOT_TOKEN environ = None →
  let run := script environ configure env events in
  exit_status run = 1 ∧
  exit_status run ≠ 0 ∧
  handled run = 0%nat ∧
  calls (final run) = [] ∧
  conversations (final run) = ∅ ∧
  sessions (final run) = [] ∧
  ∃ name : string,
    (name = "GOOGLE_API_KEY" ∨ name = "TELEGRAM_BOT_TOKEN") ∧
    log (final run) =
    [critical ("Failed to load API keys: " +:+
               (name +:+ " not found in environment variables.") +:+ ". Exiting.") None].
Proof.
  intros H run.
  destruct (api_key_setup_missing environ configure) as (name & Hn & E).
  { destruct H as [-> | ->]; [by left | by right]. }
  unfold run, script. rewrite E. simpl.
  repeat (split; [done|]). by exists name.
Qed.

Lemma missing_secret_exits_witness :
  exit_status
    (script {| GOOGLE_API_KEY := Some "key"; TELEGRAM_BOT_TOKEN := None |}
       (fun _ => None) env_ok [StartCommand (update_text 42 "/start")]) = 1.
Proof.
  exact (proj1 (missing_secret_exits
                  {| GOOGLE_API_KEY := Some "key"; TELEGRAM_BOT_TOKEN := None |}
                  (fun _ => None) env_ok [StartCommand (update_text 42 "/start")]
                  (or_intror eq_refl))).
Defined.

(** ** Reply extraction *)








Lemma payload_cases (reply : string) :
  (reply ≠ "" ∧ payload reply = reply) ∨ (reply = "" ∧ payload reply = NO_TEXT_FALLBACK).
Proof. unfold payload. destruct reply; simpl; [right|left]; done. Qed.

Ltac elem_cases H :=
  repeat (apply elem_of_cons in H as [H|H]; [try discriminate H|]);
  try (by apply elem_of_nil in H).








(** ** Errors inside the guarded part *)

(** C8.  On a text message for a chat id without a session, when the
    call on the chat session raises, the handler hands exactly one
    outbound message to [send_message], the "having trouble" text, and
    the registry holds the session created for the chat id when the
    handler is done; when the handler returns, that message is the one
    delivered. *)
Theorem gemini_failure_keeps_session (env : Env) (update : Update) (st : State)
    (s : nat) (p : string) (e : Exn) :
  let c := effective_chat_id update in
  let st' := fst (generate_response env update st) in
  truthy_opt (user_message_of update) = true →
  conversations st !! c = None →
  ChatSendMessage s p (inl e) ∈ calls_since st st' →
  emitted (calls_since st st') = [(c, ERROR_FALLBACK)] ∧
  conversations st' !! c = Some (length (sessions st)) ∧
  (length (sessions st) < length (sessions st'))%nat ∧
  s = length (sessions st) ∧
  (snd (generate_response env update st) = Returns tt →
   delivered (calls_since st st') = [(c, ERROR_FALLBACK)]).
Proof.
  intros c st' Htext Hnone Hin.
  destruct (generate_response_run env update st Htext) as (st1 & o & cs & E & Hrun & Hc & Hm & Hs).
  fold c in Hrun, Hm, Hs. unfold st' in *. rewrite E in *. simpl in *.
  rewrite (calls_since_app _ _ _ Hc) in *.
  assert (Hsf : session_for c st = length (sessions st)).
  { unfold session_for. by rewrite Hnone. }
  assert (Hres : resolved c st = created c st).
  { unfold resolved. by rewrite Hnone. }
  rewrite Hsf in Hrun. rewrite Hres in Hm, Hs.
  inversion Hrun as [e0 r Hcs Ho|e0 r Hcs Ho|response0 e0 r Hx Hcs Ho
                    |response0 reply Hx Hcs Ho|response0 reply e0 r Hx Hcs Ho];
    subst cs; elem_cases Hin; injection Hin as -> -> ->.
  split; [done|]. split; [rewrite Hm; apply lookup_insert_eq|].
  split; [rewrite Hs; simpl; rewrite length_app; simpl; lia|].
  split; [done|].
  intros Hret. apply outcome_of_returns in Hret as ->. done.
Qed.

Lemma gemini_failure_keeps_session_witness :
  let st' := fst (generate_response env_gemini_fails (update_text 7 "How are you?")
                    initial_state) in
  emitted (calls_since initial_state st') = [(7, ERROR_FALLBACK)] ∧
  conversations st' !! 7 = Some 0%nat.
Proof.
  assert (Hin : ChatSendMessage 0 (prompt_of (update_text 7 "How are you?"))
                  (inl network_error)
                ∈ calls_since initial_state
                    (fst (generate_response env_gemini_fails
                            (update_text 7 "How are you?") initial_state))).
  { vm_compute. apply list_elem_of_further, list_elem_of_here. }
  destruct (gemini_failure_keeps_session env_gemini_fails
              (update_text 7 "How are you?") initial_state 0%nat
              (prompt_of (update_text 7 "How are you?")) network_error
              eq_refl eq_refl Hin) as (H1 & H2 & _).
  split; [exact H1 | exact H2].
Defined.

(** C6, as written, fails: with a Telegram client whose typing indicator
    raises, a text message makes the handler skip the chat session
    altogether.  No prompt is submitted; the only other client call is the
    send of the "having trouble" text. *)
Lemma typing_failure_blocks_the_flow :
  ¬ typing_failure_not_blocking ∧
  calls (fst (generate_response env_typing_fails (update_text 7 "Hi") initial_state))
  = [SendChatAction 7 "typing" (Some network_error); SendMessage 7 ERROR_FALLBACK None].
Proof.
  split; [|reflexivity].
  intros H.
  specialize (H env_typing_fails (update_text 7 "Hi") initial_state network_error
                eq_refl eq_refl).
  vm_compute in H. discriminate H.
Qed.

(** C6, amended.  When the typing indicator raises on a text message, the
    error is caught by the handler's [except] clause: the failure is
    logged, no prompt is built or submitted to the chat session, and the
    one further client call is the send of the "having trouble" text,
    whose outcome is the outcome of the handler. *)
Theorem typing_failure_ends_flow (env : Env) (update : Update) (st : State) (e : Exn) :
  let c := effective_chat_id update in
  let st' := fst (generate_response env update st) in
  truthy_opt (user_message_of update) = true →
  on_send_chat_action env (length (calls st)) c "typing" = Some e →
  ∃ r : option Exn,
    generate_response env update st =
      (record_call (SendMessage c ERROR_FALLBACK r)
         (record_log (failure_record c e)
            (record_call (SendChatAction c "typing" (Some e))
               (resolved c (received update st)))),
       outcome_of r) ∧
    calls_since st st' = [SendChatAction c "typing" (Some e); SendMessage c ERROR_FALLBACK r] ∧
    submitted (calls_since st st') = [] ∧
    emitted (calls_since st st') = [(c, ERROR_FALLBACK)] ∧
    (r = None → snd (generate_response env update st) = Returns tt).
Proof.
  intros c st' Htext Htyping.
  assert (Hbody :
    try_body env c (first_name_of update) (default "" (user_message_of update))
      (session_for c st) (resolved c (received update st)) =
    (record_call (SendChatAction c "typing" (Some e)) (resolved c (received update st)),
     Raises e)).
  { unfold try_body, bind, bot_send_chat_action.
    rewrite resolved_calls. simpl. by rewrite Htyping. }
  assert (E := generate_response_eq env update st Htext). fold c in E.
  rewrite (guarded_raises _ _ _ _ _ _ _ _ Hbody) in E.
  remember (on_send_message env
              (length (calls (record_call (SendChatAction c "typing" (Some e))
                                (resolved c (received update st)))))
              c ERROR_FALLBACK) as r eqn:Hr0.
  exists r. split; [exact E|].
  assert (Hcs : calls_since st st' =
                [SendChatAction c "typing" (Some e); SendMessage c ERROR_FALLBACK r]).
  { apply calls_since_app. unfold st'. rewrite E. simpl.
    rewrite resolved_calls. simpl. by rewrite <- app_assoc. }
  rewrite Hcs. split; [reflexivity|]. split; [done|]. split; [done|].
  intros Hr. rewrite E. simpl. by rewrite Hr.
Qed.

Lemma typing_failure_ends_flow_witness :
  submitted
    (calls_since initial_state
       (fst (generate_response env_typing_fails (update_text 7 "Hi") initial_state)))
  = [].
Proof.
  destruct (typing_failure_ends_flow env_typing_fails (update_text 7 "Hi") initial_state
              network_error eq_refl eq_refl) as (r & _ & _ & H & _).
  exact H.
Defined.

(** C3, as written, fails: when the Telegram client is unreachable, the
    typing indicator raises, the [except] clause runs, and its own send
    raises as well; that error leaves the handler. *)
Lemma fallback_send_error_propagates :
  ¬ errors_never_propagate ∧
  snd (generate_response env_telegram_down (update_text 7 "Hi") initial_state)
  = Raises network_error.
Proof.
  split; [|reflexivity].
  intros H.
  destruct (H env_telegram_down (update_text 7 "Hi") initial_state _ network_error
              eq_refl eq_refl) as [Hret _].
  vm_compute in Hret. discriminate Hret.
Qed.

(** C3, amended.  When the [try] body of the message handler (typing
    indicator, prompt, call on the chat session, reply extraction, send
    of the reply) raises [e], the handler catches it, writes an ERROR
    record carrying [e], and sends the "having trouble" text to the same
    chat.  No earlier message of the run was delivered.  The handler
    returns normally when that send returns, and then the fallback is the
    one message delivered; when that send raises, its error leaves the
    handler and no message was delivered. *)
Theorem errors_are_caught (env : Env) (update : Update) (st st2 : State) (e : Exn) :
  let c := effective_chat_id update in
  let st' := fst (generate_response env update st) in
  let r := on_send_message env (length (calls st2)) c ERROR_FALLBACK in
  truthy_opt (user_message_of update) = true →
  try_body env c (first_name_of update) (default "" (user_message_of update))
    (session_for c st) (resolved c (received update st)) = (st2, Raises e) →
  generate_response env update st =
    (record_call (SendMessage c ERROR_FALLBACK r) (record_log (failure_record c e) st2),
     outcome_of r) ∧
  log st' = log st2 ++ [failure_record c e] ∧
  last (calls_since st st') = Some (SendMessage c ERROR_FALLBACK r) ∧
  (r = None →
   snd (generate_response env update st) = Returns tt ∧
   delivered (calls_since st st') = [(c, ERROR_FALLBACK)]) ∧
  (∀ e' : Exn, r = Some e' →
   snd (generate_response env update st) = Raises e' ∧
   delivered (calls_since st st') = []).
Proof.
  intros c st' r Htext Hbody.
  assert (E := generate_response_eq env update st Htext). fold c in E.
  rewrite (guarded_raises _ _ _ _ _ _ _ _ Hbody) in E. fold r in E.
  split; [exact E|]. unfold st'. rewrite E. simpl.
  split; [done|].
  destruct (try_body_run env c (first_name_of update) (default "" (user_message_of update))
              (session_for c st) (resolved c (received update st)))
    as (st2' & o & cs & E2 & Hb & Hc & _).
  rewrite Hbody in E2. injection E2 as <- <-.
  rewrite resolved_calls in Hc. simpl in Hc.
  assert (Hcs : calls_since st
                  (record_call (SendMessage c ERROR_FALLBACK r)
                     (record_log (failure_record c e) st2))
                = cs ++ [SendMessage c ERROR_FALLBACK r]).
  { apply calls_since_app. simpl. by rewrite Hc, <- app_assoc. }
  rewrite Hcs. split; [apply last_snoc|].
  assert (Hd : delivered cs = []).
  { inversion Hb as [e0|e0|response e0 Hx|response reply r0 Hx Hcs0 Ho]; [done|done|done|].
    apply outcome_of_raises in Ho as ->. done. }
  assert (Happ : ∀ l, delivered (cs ++ l) = delivered l).
  { intros l.
    inversion Hb as [e0|e0|response e0 Hx|response reply r0 Hx Hcs0 Ho]; [done|done|done|].
    apply outcome_of_raises in Ho as ->. done. }
  rewrite Happ. split.
  - intros ->. done.
  - intros e' ->. done.
Qed.

Lemma errors_are_caught_witness :
  snd (generate_response env_typing_fails (update_text 7 "Hi") initial_state) = Returns tt ∧
  delivered
    (calls_since initial_state
       (fst (generate_response env_typing_fails (update_text 7 "Hi") initial_state)))
  = [(7, ERROR_FALLBACK)].
Proof.
  destruct (errors_are_caught env_typing_fails (update_text 7 "Hi") initial_state _
              network_error eq_refl eq_refl) as (_ & _ & _ & H & _).
  exact (H eq_refl).
Defined.

(** ** Outbound messages of one run *)

(** C1, as written, fails under either way of counting: when Gemini
    answers but no outbound send gets through, the message handler hands
    two messages to [send_message] (the reply, then the "having trouble"
    text) and none of the two sends returns. *)
Lemma not_exactly_one_message :
  ¬ exactly_one_emitted ∧ ¬ exactly_one_delivered ∧
  (let cs := calls (fst (handle env_send_fails (TextMessage (update_text 7 "Hi"))
                           initial_state)) in
   emitted cs = [(7, "Hello"); (7, ERROR_FALLBACK)] ∧ delivered cs = []).
Proof.
  split; [|split; [|split; reflexivity]].
  - intros H.
    specialize (H env_send_fails (TextMessage (update_text 7 "Hi")) initial_state eq_refl).
    vm_compute in H. discriminate H.
  - intros H.
    specialize (H env_send_fails (TextMessage (update_text 7 "Hi")) initial_state eq_refl).
    vm_compute in H. discriminate H.
Qed.

(** C1, amended.  On an event that is not ignored, every outbound
    message of the run goes to the chat of the event.  The handler hands
    one message to [send_message], and a second one (the "having trouble"
    text) only when the send of the reply or of the "something went
    wrong" text raised.  At most one send returns.  When the handler
    returns normally exactly one message was delivered: the welcome
    message, the reply extracted from the response of this run, or one of
    the two fixed fallback texts.  When the handler ends with an error,
    it is the error of its last send and no message was delivered. *)
Theorem handler_outbound_messages (env : Env) (ev : Event) (st : State) :
  let c := chat_of ev in
  let st' := fst (handle env ev st) in
  let o := snd (handle env ev st) in
  let cs := calls_since st st' in
  not_ignored ev = true →
  calls st' = calls st ++ cs ∧
  (∀ m : Z * string, m ∈ emitted cs → m.1 = c) ∧
  (length (emitted cs) = 1%nat ∨
   ∃ (response : Response) (reply : string) (e : Exn),
     extract_reply response = Returns reply ∧
     emitted cs = [(c, payload reply); (c, ERROR_FALLBACK)] ∧
     SendMessage c (payload reply) (Some e) ∈ cs) ∧
  (length (delivered cs) ≤ 1)%nat ∧
  (o = Returns tt →
   ∃ text : string,
     delivered cs = [(c, text)] ∧
     ((∃ update, ev = StartCommand update ∧ text = welcome_text (first_name_of update)) ∨
      (∃ (s : nat) (p : string) (response : Response),
         ChatSendMessage s p (inr response) ∈ cs ∧
         extract_reply response = Returns text ∧ text ≠ "") ∨
      text = NO_TEXT_FALLBACK ∨
      text = ERROR_FALLBACK)) ∧
  (∀ e : Exn, o = Raises e →
   delivered cs = [] ∧ ∃ text : string, last cs = Some (SendMessage c text (Some e))).
Proof.
  intros c st' o cs Hev. subst c st' o cs.
  destruct ev as [update|update]; unfold handle, chat_of, not_ignored in *.
  - destruct (start_run env update st) as (st1 & E & Hc & _).
    rewrite E. simpl.
    rewrite (calls_since_app _ _ _ Hc).
    split; [done|].
    destruct (on_send_message env (length (calls st)) _ _) as [e0|]; simpl.
    + split; [by intros m ->%list_elem_of_singleton|].
      split; [by left|]. split; [lia|]. split; [discriminate|].
      intros e [= <-]. eauto.
    + split; [by intros m ->%list_elem_of_singleton|].
      split; [by left|]. split; [lia|]. split; [|discriminate].
      intros _. eexists. split; [reflexivity|]. left. eauto.
  - destruct (generate_response_run env update st Hev) as (st1 & o1 & cs1 & E & Hrun & Hc & _).
    rewrite E. simpl.
    rewrite (calls_since_app _ _ _ Hc).
    split; [done|].
    inversion Hrun as [e0 r Hcs Ho|e0 r Hcs Ho|response e0 r Hx Hcs Ho
                      |response reply Hx Hcs Ho|response reply e0 r Hx Hcs Ho]; simpl.
    + split; [by intros m ->%list_elem_of_singleton|]. split; [by left|].
      destruct r as [e1|]; simpl.
      * split; [lia|]. split; [discriminate|]. intros e [= <-]. eauto.
      * split; [lia|]. split; [|discriminate]. intros _. eauto 10.
    + split; [by intros m ->%list_elem_of_singleton|]. split; [by left|].
      destruct r as [e1|]; simpl.
      * split; [lia|]. split; [discriminate|]. intros e [= <-]. eauto.
      * split; [lia|]. split; [|discriminate]. intros _. eauto 10.
    + split; [by intros m ->%list_elem_of_singleton|]. split; [by left|].
      destruct r as [e1|]; simpl.
      * split; [lia|]. split; [discriminate|]. intros e [= <-]. eauto.
      * split; [lia|]. split; [|discriminate]. intros _. eauto 10.
    + split; [by intros m ->%list_elem_of_singleton|]. split; [by left|].
      split; [lia|]. split; [|discriminate]. intros _.
      eexists. split; [reflexivity|].
      destruct (payload_cases reply) as [[Hne ->]|[_ ->]]; [|by right; right; left].
      right. left. eexists _, _, response.
      split; [|done]. apply list_elem_of_further, list_elem_of_here.
    + split.
      { intros m Hm. elem_cases Hm; by subst m. }
      split.
      { right. exists response, reply, e0. split; [done|]. split; [done|].
        do 2 apply list_elem_of_further. apply list_elem_of_here. }
      destruct r as [e1|]; simpl.
      * split; [lia|]. split; [discriminate|]. intros e [= <-]. eauto.
      * split; [lia|]. split; [|discriminate]. intros _. eauto 10.
Qed.

Lemma handler_outbound_messages_witness :
  ∃ text : string,
    delivered (calls_since initial_state
                 (fst (handle env_ok (StartCommand (update_text 42 "/start")) initial_state)))
    = [(42, text)].
Proof.
  destruct (handler_outbound_messages env_ok (StartCommand (update_text 42 "/start"))
              initial_state eq_refl) as (_ & _ & _ & _ & H & _).
  destruct (H eq_refl) as (text & Ht & _).
  exists text. exact Ht.
Defined.

(** ** Reachable states *)

Lemma registry_wf_handle (env : Env) (ev : Event) (st : State) :
  registry_wf st → registry_wf (fst (handle env ev st)).
Proof.
  intros Hwf. destruct ev as [update|update]; unfold handle.
  - apply (registry_wf_restarted (effective_chat_id update) st Hwf).
  - destruct (truthy_opt (user_message_of update)) eqn:Htext.
    + destruct (generate_response_run env update st Htext)
        as (st' & o & cs & E & _ & _ & Hm & Hs).
      rewrite E. simpl. intros c s. rewrite Hm, Hs.
      apply (registry_wf_resolved _ _ Hwf).
    + by rewrite generate_response_ignored.
Qed.

Lemma registry_wf_run_polling (env : Env) (events : list Event) (st : State) :
  registry_wf st → registry_wf (fst (run_polling env events st)).
Proof.
  revert st. induction events as [|ev events IH]; intros st Hwf; simpl; [done|].
  specialize (IH _ (registry_wf_handle env ev st Hwf)).
  by destruct (run_polling env events (fst (handle env ev st))).
Qed.

(** Every state the script can end in has a well-formed registry. *)
Lemma registry_wf_script (environ : Environ) (configure : string → option Exn)
    (env : Env) (events : list Event) :
  registry_wf (final (script environ configure env events)).
Proof.
  unfold script. destruct (api_key_setup environ configure) as [records [key token|status]].
  - unfold main.
    pose proof (registry_wf_run_polling env events
                  (record_log
                     {| levelname := INFO;
                        log_msg := "Starting bot with continuous polling...";
                        exc_info := None |}
                     {| conversations := ∅; sessions := []; calls := []; log := records |})
                  registry_wf_initial) as H.
    by destruct (run_polling env events _).
  - apply registry_wf_initial.
Qed.

(** ** The end-to-end scenarios of the specification *)

Example scenario_start :
  let st := fst (start env_ok (update_text 42 "/start") initial_state) in
  conversations st !! 42 = Some 0%nat ∧
  emitted (calls st) = [(42, welcome_text "Asha")].
Proof. split; reflexivity. Qed.

Example scenario_reply :
  let st := fst (generate_response i_am_well (update_text 42 "How are you?") initial_state) in
  emitted (calls st) = [(42, "I am well")] ∧ delivered (calls st) = [(42, "I am well")].
Proof. split; reflexivity. Qed.

Example scenario_parts : extract_reply parts_response = Returns "first".
Proof. reflexivity. Qed.

Example scenario_no_text :
  extract_reply empty_response = Returns "" ∧
  emitted (calls (fst (generate_response env_empty (update_text 42 "Hi") initial_state)))
  = [(42, NO_TEXT_FALLBACK)].
Proof. split; reflexivity. Qed.

Example scenario_blocked :
  extract_reply blocked_response = Raises no_parts_error ∧
  emitted (calls (fst (generate_response env_blocked (update_text 42 "Hi") initial_state)))
  = [(42, ERROR_FALLBACK)].
Proof. split; reflexivity. Qed.

(** * Further properties *)

(** ** API key setup *)

(** X1.  A secret that is set to the empty string counts as missing: the
    setup writes the CRITICAL record that names the variable it rejected
    and ends in [sys.exit(1)].  The variable named is [GOOGLE_API_KEY]
    when the Google key is missing or empty, whatever the Telegram token
    is, and [TELEGRAM_BOT_TOKEN] when the Google key is set and non-empty
    and the Telegram token is empty. *)
Theorem empty_secret_exits (environ : Environ) (configure : string → option Exn) :
  GOOGLE_API_KEY environ = Some "" ∨ TELEGRAM_BOT_TOKEN environ = Some "" →
  api_key_setup environ configure =
  ([critical ("Failed to load API keys: " +:+
              ((if truthy_opt (GOOGLE_API_KEY environ)
                then "TELEGRAM_BOT_TOKEN" else "GOOGLE_API_KEY")
               +:+ " not found in environment variables.") +:+ ". Exiting.") None],
   SysExit 1).
Proof.
  intros H. unfold api_key_setup, load_api_keys.
  destruct (truthy_opt (GOOGLE_API_KEY environ)) eqn:Hg; simpl; [|reflexivity].
  destruct H as [H|H]; [rewrite H in Hg; discriminate Hg|]. rewrite H. reflexivity.
Qed.

Lemma empty_secret_exits_witness :
  api_key_setup {| GOOGLE_API_KEY := Some "key"; TELEGRAM_BOT_TOKEN := Some "" |}
    (fun _ => None)
  = ([critical
        "Failed to load API keys: TELEGRAM_BOT_TOKEN not found in environment variables.. Exiting."
        None],
     SysExit 1).
Proof.
  exact (empty_secret_exits
           {| GOOGLE_API_KEY := Some "key"; TELEGRAM_BOT_TOKEN := Some "" |}
           (fun _ => None) (or_intror eq_refl)).
Defined.

(** X2.  The setup ends with the keys loaded exactly when both secrets
    are set and non-empty and [genai.configure] returns; the keys it
    hands on are the two values read from the environment.  In every
    other case it ends in [sys.exit], and always with status 1. *)
Theorem api_key_setup_loads_iff (environ : Environ) (configure : string → option Exn) :
  (∀ key token : string,
     snd (api_key_setup environ configure) = Loaded key token ↔
     GOOGLE_API_KEY environ = Some key ∧ key ≠ "" ∧
     TELEGRAM_BOT_TOKEN environ = Some token ∧ token ≠ "" ∧
     configure key = None) ∧
  (∀ status : Z, snd (api_key_setup environ configure) = SysExit status → status = 1).
Proof.
  unfold api_key_setup, load_api_keys.
  destruct (GOOGLE_API_KEY environ) as [[|a k]|];
    destruct (TELEGRAM_BOT_TOKEN environ) as [[|b t]|]; simpl;
    try (split; [intros key token; split; [discriminate | intros (H1 & H2 & H3 & H4 & _); congruence]
                | intros status [= <-]; reflexivity]).
  destruct (configure (String a k)) as [e|] eqn:Hc; simpl.
  - split.
    + intros key token. split.
      * destruct (is_ValueError e); discriminate.
      * intros ([= <-] & _ & _ & _ & H). congruence.
    + intros status. destruct (is_ValueError e); intros [= <-]; reflexivity.
  - split.
    + intros key token. split.
      * intros [= <- <-]. done.
      * intros ([= <-] & _ & [= <-] & _ & _). reflexivity.
    + discriminate.
Qed.

(** X3.  The setup never ends silently: when it exits, exactly one record
    was written and it is CRITICAL; when the keys are loaded, exactly one
    record was written and it is INFO. *)
Theorem api_key_setup_outcome_is_logged (environ : Environ)
    (configure : string → option Exn) :
  ∃ r : LogRecord,
    fst (api_key_setup environ configure) = [r] ∧
    (levelname r = CRITICAL ↔ ∃ status, snd (api_key_setup environ configure) = SysExit status) ∧
    (levelname r = INFO ↔ ∃ key token, snd (api_key_setup environ configure) = Loaded key token).
Proof.
  unfold api_key_setup.
  destruct (load_api_keys environ configure) as [e|[key token]]; simpl.
  - destruct (is_ValueError e); simpl; eexists; (split; [reflexivity|]); simpl;
      (split; split; [eauto | done | discriminate | intros (? & ? & ?); discriminate]).
  - eexists. split; [reflexivity|]. simpl.
    split; split; [discriminate | intros (? & ?); discriminate | eauto | done].
Qed.

(** X4.  When a secret is missing or empty, [genai.configure] plays no
    part: the setup ends the same way whatever that call would do. *)
Theorem missing_secret_skips_configure (environ : Environ)
    (configure configure' : string → option Exn) :
  truthy_opt (GOOGLE_API_KEY environ) = false ∨
  truthy_opt (TELEGRAM_BOT_TOKEN environ) = false →
  api_key_setup environ configure = api_key_setup environ configure'.
Proof.
  intros H. unfold api_key_setup, load_api_keys.
  destruct (truthy_opt (GOOGLE_API_KEY environ)); simpl; [|reflexivity].
  destruct H as [H|H]; [discriminate H|]. rewrite H. reflexivity.
Qed.

Lemma missing_secret_skips_configure_witness :
  api_key_setup {| GOOGLE_API_KEY := None; TELEGRAM_BOT_TOKEN := Some "token" |}
    (fun _ => None)
  = api_key_setup {| GOOGLE_API_KEY := None; TELEGRAM_BOT_TOKEN := Some "token" |}
      (fun _ => Some network_error).
Proof.
  apply (missing_secret_skips_configure
           {| GOOGLE_API_KEY := None; TELEGRAM_BOT_TOKEN := Some "token" |}).
  left. reflexivity.
Defined.

(** ** Sessions and registry across a run *)

Lemma guarded_sessions (env : Env) (c : Z) (name text : string) (s : nat) (st : State)
    (s' : nat) :
  s' ≠ s →
  sessions (fst (try_except (try_body env c name text s) (except_clause env c) st)) !! s'
  = sessions st !! s'.
Proof.
  intros Hne.
  unfold try_except, try_body, bind, bot_send_chat_action, except_clause, logger_error,
    bot_send_message, logger_info.
  destruct (on_send_chat_action env (length (calls st)) c "typing") as [e|]; simpl; [done|].
  unfold chat_session_send_message. simpl.
  destruct (on_chat_send_message env _ s _) as [e|response]; simpl; [done|].
  unfold of_outcome.
  destruct (extract_reply response) as [reply|e]; simpl;
    [|by rewrite list_lookup_alter_ne].
  rewrite send_reply_eq. unfold bot_send_message. simpl.
  destruct (on_send_message env _ c (payload reply)) as [e|]; simpl;
    by rewrite list_lookup_alter_ne.
Qed.

Lemma generate_response_sessions (env : Env) (update : Update) (st : State) (s' : nat) :
  truthy_opt (user_message_of update) = true →
  s' ≠ session_for (effective_chat_id update) st →
  sessions (fst (generate_response env update st)) !! s'
  = sessions (resolved (effective_chat_id update) st) !! s'.
Proof.
  intros Htext Hne. rewrite generate_response_eq by done.
  rewrite guarded_sessions by done.
  unfold resolved. simpl. by destruct (conversations st !! effective_chat_id update).
Qed.

Lemma resolved_registered (c : Z) (st : State) (s : nat) :
  conversations st !! c = Some s → resolved c st = st ∧ session_for c st = s.
Proof. intros H. unfold resolved, session_for. by rewrite H. Qed.

Lemma resolved_unregistered (c : Z) (st : State) :
  conversations st !! c = None →
  resolved c st = created c st ∧ session_for c st = length (sessions st).
Proof. intros H. unfold resolved, session_for. by rewrite H. Qed.

Lemma submitted_of_run (c : Z) (s : nat) (p : string) (cs : list Call) (o : Outcome unit) :
  message_run c s p cs o →
  ∃ (r0 : option Exn) (rest : list Call),
    cs = SendChatAction c "typing" r0 :: rest ∧
    submitted cs = match r0 with None => [(s, p)] | Some _ => [] end ∧
    (2 ≤ length cs ≤ 4)%nat.
Proof.
  intros Hrun. inversion Hrun; eexists _, _; (split; [reflexivity|]); simpl;
    (split; [reflexivity | lia]).
Qed.

Lemma message_run_registry (env : Env) (update : Update) (st : State) (s : nat) :
  truthy_opt (user_message_of update) = true →
  conversations st !! effective_chat_id update = Some s →
  conversations (fst (generate_response env update st)) = conversations st ∧
  length (sessions (fst (generate_response env update st))) = length (sessions st).
Proof.
  intros Htext Hreg.
  destruct (generate_response_run env update st Htext)
    as (st1 & o & cs1 & E & _ & _ & Hm & Hs).
  destruct (resolved_registered _ _ _ Hreg) as [Hres _].
  rewrite Hres in Hm, Hs. rewrite E. done.
Qed.

Lemma message_run_unregistered (env : Env) (update : Update) (st : State) :
  truthy_opt (user_message_of update) = true →
  conversations st !! effective_chat_id update = None →
  conversations (fst (generate_response env update st))
  = <[effective_chat_id update := length (sessions st)]> (conversations st) ∧
  length (sessions (fst (generate_response env update st))) = S (length (sessions st)).
Proof.
  intros Htext Hnone.
  destruct (generate_response_run env update st Htext)
    as (st1 & o & cs1 & E & _ & _ & Hm & Hs).
  destruct (resolved_unregistered _ _ Hnone) as [Hres _].
  rewrite Hres in Hm, Hs. rewrite E. simpl.
  split; [done|]. rewrite Hs. simpl. rewrite length_app. simpl. lia.
Qed.

(** X5.  A text message for a chat that already has a session leaves the
    registry as it is and creates no session; the run starts with the
    typing indicator and, when that call returns, submits one prompt, the
    one built from the update, to the registered session, and none
    otherwise. *)
Theorem message_reuses_session (env : Env) (update : Update) (st : State) (s : nat) :
  let c := effective_chat_id update in
  let st' := fst (generate_response env update st) in
  let cs := calls_since st st' in
  truthy_opt (user_message_of update) = true →
  conversations st !! c = Some s →
  conversations st' = conversations st ∧
  length (sessions st') = length (sessions st) ∧
  ∃ (r0 : option Exn) (rest : list Call),
    cs = SendChatAction c "typing" r0 :: rest ∧
    submitted cs = match r0 with None => [(s, prompt_of update)] | Some _ => [] end.
Proof.
  intros c st' cs Htext Hreg.
  destruct (generate_response_run env update st Htext)
    as (st1 & o & cs1 & E & Hrun & Hc & Hm & Hs).
  destruct (resolved_registered _ _ _ Hreg) as [Hres Hsf].
  fold c in Hrun, Hm, Hs, Hres, Hsf. rewrite Hres in Hm, Hs. rewrite Hsf in Hrun.
  unfold cs, st'. rewrite E. simpl. rewrite (calls_since_app _ _ _ Hc).
  split; [done|]. split; [done|].
  destruct (submitted_of_run _ _ _ _ _ Hrun) as (r0 & rest & -> & Hsub & _).
  eauto.
Qed.

Lemma message_reuses_session_witness :
  conversations
    (fst (generate_response env_ok (update_text 1 "Hi") state_with_chat_1))
  = conversations state_with_chat_1.
Proof.
  exact (proj1 (message_reuses_session env_ok (update_text 1 "Hi") state_with_chat_1
                  0%nat eq_refl eq_refl)).
Defined.

(** X6.  A text message for a chat without a session creates exactly one
    session and registers it under the chat id, whatever the two clients
    answer afterwards: the session stays registered also when the typing
    indicator, the chat session or an outbound send raises. *)
Theorem first_message_creates_one_session (env : Env) (update : Update) (st : State) :
  let c := effective_chat_id update in
  let st' := fst (generate_response env update st) in
  truthy_opt (user_message_of update) = true →
  conversations st !! c = None →
  conversations st' = <[c := length (sessions st)]> (conversations st) ∧
  length (sessions st') = S (length (sessions st)) ∧
  (∀ s' : nat, (s' < length (sessions st))%nat → sessions st' !! s' = sessions st !! s').
Proof.
  intros c st' Htext Hnone.
  destruct (generate_response_run env update st Htext)
    as (st1 & o & cs1 & E & Hrun & Hc & Hm & Hs).
  destruct (resolved_unregistered _ _ Hnone) as [Hres Hsf].
  fold c in Hm, Hs, Hres, Hsf. rewrite Hres in Hm, Hs.
  unfold st'. rewrite E. simpl.
  split; [done|]. split; [rewrite Hs; simpl; rewrite length_app; simpl; lia|].
  intros s' Hlt.
  pose proof (generate_response_sessions env update st s' Htext) as Hk.
  fold c in Hk. rewrite Hsf, Hres, E in Hk. simpl in Hk.
  rewrite Hk by lia. by apply lookup_app_l.
Qed.

Lemma first_message_creates_one_session_witness :
  length (sessions (fst (generate_response env_telegram_down (update_text 7 "Hi")
                           initial_state)))
  = 1%nat.
Proof.
  exact (proj1 (proj2 (first_message_creates_one_session env_telegram_down
                         (update_text 7 "Hi") initial_state eq_refl eq_refl))).
Defined.

(** The registry after a run of a handler, by cases. *)
Lemma handle_registry (env : Env) (ev : Event) (st : State) :
  let c := chat_of ev in
  let st' := fst (handle env ev st) in
  (conversations st' = conversations st ∧ length (sessions st') = length (sessions st)) ∨
  (conversations st' = <[c := length (sessions st)]> (conversations st) ∧
   length (sessions st') = S (length (sessions st))).
Proof.
  intros c st'. destruct ev as [update|update]; unfold handle, chat_of in *.
  - right. unfold st'. simpl. split; [done|]. rewrite length_app. simpl. lia.
  - destruct (truthy_opt (user_message_of update)) eqn:Htext.
    + destruct (conversations st !! c) as [s|] eqn:Hreg.
      * left.
        destruct (message_run_registry env update st s Htext Hreg) as [H1 H2]. done.
      * right.
        destruct (message_run_unregistered env update st Htext Hreg) as [H1 H2]. done.
    + left. unfold st'. by rewrite generate_response_ignored.
Qed.

(** X7.  A run of a handler leaves the registry entry of every other
    chat as it is, whether the run returns or raises. *)
Theorem handle_keeps_other_chats (env : Env) (ev : Event) (st : State) (c' : Z) :
  c' ≠ chat_of ev →
  conversations (fst (handle env ev st)) !! c' = conversations st !! c'.
Proof.
  intros Hne. destruct (handle_registry env ev st) as [[-> _]|[-> _]]; [done|].
  by rewrite lookup_insert_ne.
Qed.

Lemma handle_keeps_other_chats_witness :
  conversations (fst (handle env_ok (StartCommand (update_text 2 "/start"))
                        state_with_chat_1)) !! 1
  = conversations state_with_chat_1 !! 1.
Proof.
  apply (handle_keeps_other_chats env_ok (StartCommand (update_text 2 "/start"))
           state_with_chat_1 1).
  discriminate.
Defined.

(** X8.  No run of a handler removes a chat from the registry, and a run
    creates at most one session; no session object is ever dropped. *)
Theorem handle_never_unregisters (env : Env) (ev : Event) (st : State) :
  let st' := fst (handle env ev st) in
  (∀ c' : Z, is_Some (conversations st !! c') → is_Some (conversations st' !! c')) ∧
  (length (sessions st) ≤ length (sessions st') ≤ S (length (sessions st)))%nat.
Proof.
  intros st'. unfold st'.
  destruct (handle_registry env ev st) as [[-> ->]|[-> ->]].
  - split; [done | lia].
  - split; [|lia]. intros c' Hc'.
    destruct (decide (chat_of ev = c')) as [<-|Hne].
    + rewrite lookup_insert_eq. eauto.
    + by rewrite lookup_insert_ne.
Qed.

Lemma registry_inj_initial : registry_inj initial_state.
Proof. intros c1 c2 s H. simpl in H. by rewrite lookup_empty in H. Qed.

Lemma registry_inj_handle (env : Env) (ev : Event) (st : State) :
  registry_wf st → registry_inj st → registry_inj (fst (handle env ev st)).
Proof.
  intros Hwf Hinj c1 c2 s.
  destruct (handle_registry env ev st) as [[-> _]|[-> _]]; [apply Hinj|].
  destruct (decide (chat_of ev = c1)) as [<-|H1];
    destruct (decide (chat_of ev = c2)) as [<-|H2];
    rewrite ?lookup_insert_eq, ?lookup_insert_ne by done.
  - done.
  - intros [= <-] H%Hwf. lia.
  - intros H%Hwf [= <-]. lia.
  - apply Hinj.
Qed.

(** X9.  In every state the handlers can leave behind, each session the
    registry refers to has been created, and no two chats share a session
    object. *)
Theorem reachable_registry_invariants (st : State) :
  reachable st → registry_wf st ∧ registry_inj st.
Proof.
  induction 1 as [|env ev st _ [Hwf Hinj]].
  - split; [apply registry_wf_initial | apply registry_inj_initial].
  - split; [by apply registry_wf_handle | by apply registry_inj_handle].
Qed.

Lemma reachable_registry_invariants_witness :
  registry_wf state_with_chat_1 ∧ registry_inj state_with_chat_1.
Proof.
  apply (reachable_registry_invariants state_with_chat_1).
  apply (reachable_handle env_ok (StartCommand (update_text 1 "/start")) initial_state).
  apply reachable_initial.
Defined.

Lemma reachable_registry_state_with_chat_1 :
  registry_wf state_with_chat_1 ∧ registry_inj state_with_chat_1.
Proof.
  split.
  - apply (registry_wf_handle env_ok (StartCommand (update_text 1 "/start")) initial_state).
    apply registry_wf_initial.
  - apply (registry_inj_handle env_ok (StartCommand (update_text 1 "/start")) initial_state).
    + apply registry_wf_initial.
    + apply registry_inj_initial.
Qed.

(** X10.  A run of a handler for one chat never touches the session of
    another chat: the other chat keeps its session object, and that
    object's history is what it was before the run. *)
Theorem other_chat_session_untouched (env : Env) (ev : Event) (st : State)
    (c' : Z) (s' : nat) :
  let st' := fst (handle env ev st) in
  registry_wf st →
  registry_inj st →
  c' ≠ chat_of ev →
  conversations st !! c' = Some s' →
  conversations st' !! c' = Some s' ∧
  sessions st' !! s' = sessions st !! s'.
Proof.
  intros st' Hwf Hinj Hne Hreg.
  assert (Hlt : (s' < length (sessions st))%nat) by by apply (Hwf c').
  split.
  { unfold st'. destruct (handle_registry env ev st) as [[-> _]|[-> _]]; [done|].
    by rewrite lookup_insert_ne. }
  unfold st'. destruct ev as [update|update]; unfold handle, chat_of in *.
  - simpl. by apply lookup_app_l.
  - destruct (truthy_opt (user_message_of update)) eqn:Htext.
    + assert (Hs : s' ≠ session_for (effective_chat_id update) st).
      { unfold session_for.
        destruct (conversations st !! effective_chat_id update) as [s|] eqn:Hc; simpl.
        - intros <-. apply Hne. by apply (Hinj c' (effective_chat_id update) s').
        - lia. }
      rewrite generate_response_sessions by done.
      unfold resolved.
      destruct (conversations st !! effective_chat_id update); [done|].
      simpl. by apply lookup_app_l.
    + by rewrite generate_response_ignored.
Qed.

Lemma other_chat_session_untouched_witness :
  sessions (fst (handle env_ok (TextMessage (update_text 2 "Hi")) state_with_chat_1)) !! 0%nat
  = sessions state_with_chat_1 !! 0%nat.
Proof.
  destruct reachable_registry_state_with_chat_1 as [Hwf Hinj].
  refine (proj2 (other_chat_session_untouched env_ok (TextMessage (update_text 2 "Hi"))
                   state_with_chat_1 1 0%nat Hwf Hinj _ eq_refl)).
  discriminate.
Defined.

(** X11.  After any event for a chat that is not ignored, the chat has a
    session, and a text message that follows for the same chat creates no
    session and leaves the registry as it is: when its typing indicator
    returns, its prompt goes to the session the first event left in the
    registry. *)
Theorem session_persists_to_next_message (env env' : Env) (ev : Event)
    (update' : Update) (st : State) :
  let c := chat_of ev in
  let st1 := fst (handle env ev st) in
  let st2 := fst (generate_response env' update' st1) in
  not_ignored ev = true →
  effective_chat_id update' = c →
  truthy_opt (user_message_of update') = true →
  ∃ s : nat,
    conversations st1 !! c = Some s ∧
    conversations st2 = conversations st1 ∧
    length (sessions st2) = length (sessions st1) ∧
    ∃ (r0 : option Exn) (rest : list Call),
      calls_since st1 st2 = SendChatAction c "typing" r0 :: rest ∧
      submitted (calls_since st1 st2)
      = match r0 with None => [(s, prompt_of update')] | Some _ => [] end.
Proof.
  intros c st1 st2 Hev Hc Htext.
  assert (Hreg : ∃ s, conversations st1 !! c = Some s).
  { unfold st1. destruct ev as [update|update]; unfold handle, chat_of, not_ignored in *.
    - eexists. apply lookup_insert_eq.
    - destruct (generate_response_run env update st Hev)
        as (st' & o & cs & E & _ & _ & Hm & _).
      rewrite E. simpl. rewrite Hm. eexists. apply resolved_lookup. }
  destruct Hreg as [s Hreg]. exists s. split; [done|].
  rewrite <- Hc in Hreg.
  destruct (message_run_registry env' update' st1 s Htext Hreg) as [Hm Hs].
  split; [done|]. split; [done|].
  destruct (generate_response_run env' update' st1 Htext)
    as (st' & o & cs & E & Hrun & Hcs & _).
  destruct (resolved_registered _ _ _ Hreg) as [_ Hsf]. rewrite Hsf, Hc in Hrun.
  unfold st2. rewrite E. simpl. rewrite (calls_since_app _ _ _ Hcs).
  destruct (submitted_of_run _ _ _ _ _ Hrun) as (r0 & rest & -> & Hsub & _).
  eauto.
Qed.

Lemma session_persists_to_next_message_witness :
  submitted
    (calls_since state_with_chat_1
       (fst (generate_response env_ok (update_text 1 "Hi") state_with_chat_1)))
  = [(0%nat, prompt_of (update_text 1 "Hi"))].
Proof.
  destruct (session_persists_to_next_message env_ok env_ok
              (StartCommand (update_text 1 "/start")) (update_text 1 "Hi")
              initial_state eq_refl eq_refl eq_refl)
    as (s & Hs & _ & _ & r0 & rest & Hcalls & Hsub).
  injection Hs as <-. injection Hcalls as <- _. exact Hsub.
Defined.

(** ** Log records of a run *)

Lemma log_since_app (st st' : State) (records : list LogRecord) :
  log st' = log st ++ records → log_since st st' = records.
Proof. intros H. unfold log_since. rewrite H. apply drop_app_length. Qed.

Lemma error_records_app (l1 l2 : list LogRecord) :
  error_records (l1 ++ l2) = error_records l1 ++ error_records l2.
Proof. apply filter_app. Qed.

(** The records the guarded part of the message handler writes: those of
    the [try] body, none of which is an error record, then the record of
    the [except] clause when the body raised. *)
Lemma guarded_log (env : Env) (c : Z) (name text : string) (s : nat) (st : State) :
  ∃ records : list LogRecord,
    error_records records = [] ∧
    log (fst (try_except (try_body env c name text s) (except_clause env c) st))
    = log st ++ records ++
      match snd (try_body env c name text s st) with
      | Raises e => [failure_record c e]
      | Returns _ => []
      end.
Proof.
  unfold try_except, try_body, bind, bot_send_chat_action, except_clause, logger_error,
    bot_send_message, logger_info.
  destruct (on_send_chat_action env (length (calls st)) c "typing") as [e|]; simpl.
  - exists []. done.
  - unfold chat_session_send_message. simpl.
    destruct (on_chat_send_message env _ s _) as [e|response]; simpl.
    + eexists [_]. split; [|rewrite <- !app_assoc; reflexivity]. reflexivity.
    + unfold of_outcome.
      destruct (extract_reply response) as [reply|e]; simpl.
      * rewrite send_reply_eq. unfold bot_send_message. simpl.
        destruct (on_send_message env _ c (payload reply)) as [e|]; simpl;
          eexists [_; _; _];
          (split; [|rewrite <- !app_assoc; reflexivity]);
          by destruct (truthy reply).
      * eexists [_; _]. split; [|rewrite <- !app_assoc; reflexivity]. reflexivity.
Qed.

(** X12.  A run of the message handler on a non-empty text writes an
    ERROR record exactly when its [try] body raised: then it writes one,
    carrying the exception and naming the chat, and otherwise none.  The
    start handler and an ignored message write no ERROR record, and no
    handler writes a CRITICAL one. *)
Theorem errors_logged_exactly_when_caught (env : Env) (update : Update) (st : State) :
  let c := effective_chat_id update in
  error_records (log_since st (fst (start env update st))) = [] ∧
  (truthy_opt (user_message_of update) = false →
   error_records (log_since st (fst (generate_response env update st))) = []) ∧
  (truthy_opt (user_message_of update) = true →
   error_records (log_since st (fst (generate_response env update st)))
   = match snd (try_body env c (first_name_of update)
                  (default "" (user_message_of update))
                  (session_for c st) (resolved c (received update st))) with
     | Raises e => [failure_record c e]
     | Returns _ => []
     end).
Proof.
  intros c. split; [|split].
  - rewrite (log_since_app st _ [_]) by reflexivity. reflexivity.
  - intros Htext. rewrite generate_response_ignored by done.
    rewrite (log_since_app st _ [_]) by reflexivity. reflexivity.
  - intros Htext. rewrite generate_response_eq by done. fold c.
    destruct (guarded_log env c (first_name_of update) (default "" (user_message_of update))
                (session_for c st) (resolved c (received update st)))
      as (records & Hnone & Hlog).
    assert (Hres : ∃ pre, log (resolved c (received update st)) = log st ++ pre ∧
                          error_records pre = []).
    { unfold resolved. simpl. destruct (conversations st !! c).
      - eexists [_]. split; reflexivity.
      - eexists [_; _]. split; [simpl; rewrite <- app_assoc; reflexivity | reflexivity]. }
    destruct Hres as (pre & Hpre & Hpre_none).
    rewrite Hpre in Hlog.
    rewrite (log_since_app st _ (pre ++ records ++ _)) by (rewrite Hlog, <- !app_assoc; done).
    rewrite !error_records_app, Hpre_none, Hnone. simpl.
    by destruct (snd _).
Qed.

Lemma errors_logged_exactly_when_caught_witness :
  error_records
    (log_since initial_state
       (fst (generate_response env_typing_fails (update_text 7 "Hi") initial_state)))
  = [failure_record 7 network_error].
Proof.
  exact (proj2 (proj2 (errors_logged_exactly_when_caught env_typing_fails
                         (update_text 7 "Hi") initial_state)) eq_refl).
Defined.

(** ** More on reply extraction *)








(** X14.  No handler ever hands an empty text to [send_message]. *)
Theorem never_sends_empty_text (env : Env) (ev : Event) (st : State) (c : Z) (text : string) :
  (c, text) ∈ emitted (calls_since st (fst (handle env ev st))) → text ≠ "".
Proof.
  assert (Hpayload : ∀ reply, payload reply ≠ "").
  { intros reply. destruct (payload_cases reply) as [[Hne ->]|[_ ->]]; [done|].
    discriminate. }
  destruct ev as [update|update]; unfold handle.
  - destruct (start_run env update st) as (st' & E & Hc & _).
    rewrite E. simpl. rewrite (calls_since_app _ _ _ Hc). simpl.
    intros [= _ ->]%list_elem_of_singleton. discriminate.
  - destruct (truthy_opt (user_message_of update)) eqn:Htext.
    + destruct (generate_response_run env update st Htext)
        as (st' & o & cs & E & Hrun & Hc & _).
      rewrite E. simpl. rewrite (calls_since_app _ _ _ Hc).
      inversion Hrun; simpl; intros Hin; elem_cases Hin;
        injection Hin as _ ->; try apply Hpayload; discriminate.
    + rewrite generate_response_ignored by done.
      unfold calls_since. simpl. rewrite drop_all. simpl. intros Hin.
      by apply elem_of_nil in Hin.
Qed.

Lemma never_sends_empty_text_witness : welcome_text "Asha" ≠ "".
Proof.
  apply (never_sends_empty_text env_ok (StartCommand (update_text 42 "/start"))
           initial_state 42 (welcome_text "Asha")).
  vm_compute. apply list_elem_of_here.
Defined.
